(** * In-memory todo service (fasthttp): a shallow embedding of [main.go]

    The handlers of [main.go] are embedded as functions that thread the
    package-level state ([todos], [nextID]) and the part of the outside
    world they touch (the clock and the [uploads] directory) explicitly.
    The reader/writer mutex [mu] only orders concurrent requests; the
    embedding describes one request at a time, i.e. the sequential
    behaviour every interleaving of whole requests is built from. *)

From Stdlib Require Import Ascii String.
From stdpp Require Import gmap strings list fin_maps pretty sorting.

Open Scope Z_scope.

(** ** Data model *)

(** [type Subtask struct { ID int; Title string; Completed bool }] *)
Record Subtask := mkSubtask {
  Subtask_ID : Z;
  Subtask_Title : string;
  Subtask_Completed : bool
}.

(** [type Todo struct { ID; Title; Description; Completed; Images; Subtasks }] *)
Record Todo := mkTodo {
  Todo_ID : Z;
  Todo_Title : string;
  Todo_Description : string;
  Todo_Completed : bool;
  Todo_Images : list string;
  Todo_Subtasks : list Subtask
}.

(** Go's [int] on a 64-bit platform: arithmetic wraps around silently. *)
Definition intSize : Z := 64.
Definition maxInt : Z := 2 ^ (intSize - 1) - 1.
Definition minInt : Z := - 2 ^ (intSize - 1).
Definition wrap_int (z : Z) : Z :=
  (z + 2 ^ (intSize - 1)) `mod` 2 ^ intSize - 2 ^ (intSize - 1).

(** The package-level variables [todos] and [nextID].  [todos] is a
    [map[int]*Todo]; every pointer is stored under one key only and is
    dereferenced only by the request that looked it up, so the map of
    pointers is represented by the map of the records pointed to. *)
Record Store := mkStore {
  todos : gmap Z Todo;
  nextID : Z
}.

Definition initial : Store := {| todos := ∅; nextID := 1 |}.

(** ** Completion derivation *)

(** The [for _, s := range subtasks] loop of [checkAllSubtasksCompleted]. *)
Fixpoint allCompleted_loop (subtasks : list Subtask) : bool :=
  match subtasks with
  | [] => true
  | s :: rest => if negb (Subtask_Completed s) then false else allCompleted_loop rest
  end.

Definition checkAllSubtasksCompleted (subtasks : list Subtask) : bool :=
  if (length subtasks =? 0)%nat then false else allCompleted_loop subtasks.

(** ** Paths: [filepath.Join] on a slash-separated platform *)

(** [strings.Split(p, "/")] *)
Fixpoint path_elements (p : string) : list string :=
  match p with
  | EmptyString => [EmptyString]
  | String c rest =>
      if Ascii.eqb c "/"%char then EmptyString :: path_elements rest
      else match path_elements rest with
           | e :: es => String c e :: es
           | [] => [String c EmptyString]
           end
  end.

(** The element loop of [filepath.Clean]: empty and [.] elements are
    skipped, [..] removes the last real element when there is one and is
    kept otherwise in a relative path.  [out] is the output written so
    far, last element first. *)
Fixpoint clean_loop (rooted : bool) (es out : list string) : list string :=
  match es with
  | [] => out
  | e :: es' =>
      if decide (e = EmptyString) then clean_loop rooted es' out
      else if decide (e = ".") then clean_loop rooted es' out
      else if decide (e = "..") then
        match out with
        | top :: below =>
            if decide (top = "..") then clean_loop rooted es' (e :: out)
            else clean_loop rooted es' below
        | [] => clean_loop rooted es' (if rooted then [] else [e])
        end
      else clean_loop rooted es' (e :: out)
  end.

Fixpoint join_slash (es : list string) : string :=
  match es with
  | [] => EmptyString
  | [e] => e
  | e :: es' => e +:+ "/" +:+ join_slash es'
  end.

Definition filepath_Clean (p : string) : string :=
  match p with
  | EmptyString => "."
  | String c _ =>
      let rooted := Ascii.eqb c "/"%char in
      let out := rev (clean_loop rooted (path_elements p) []) in
      if rooted then "/" +:+ join_slash out
      else match out with [] => "." | _ => join_slash out end
  end.

(** [filepath.Join]: the elements from the first non-empty one on are
    joined with slashes and cleaned. *)
Fixpoint filepath_Join (elem : list string) : string :=
  match elem with
  | [] => EmptyString
  | e :: rest =>
      if decide (e = EmptyString) then filepath_Join rest
      else filepath_Clean (join_slash (e :: rest))
  end.


(** ** Requests and responses *)

(** [multipart.FileHeader]: the name the client gave and the bytes sent. *)
Record FileHeader := mkFileHeader {
  Filename : string;
  Content : string
}.

(** [multipart.Form]: text values and uploaded files, both keyed by
    field name. *)
Record Form := mkForm {
  Value : gmap string (list string);
  File : gmap string (list FileHeader)
}.

(** What a handler writes to [ctx]: [json.Marshal] is kept abstract, a
    JSON body is represented by the value that is marshalled (none of
    the marshalled types can make [json.Marshal] fail). *)
Inductive Payload :=
  | NoBody
  | Text (msg : string)
  | JSONTodo (t : Todo)
  | JSONTodos (l : list Todo).

Record Response := mkResponse {
  StatusCode : Z;
  Body : Payload
}.

Definition StatusOK : Z := 200.
Definition StatusCreated : Z := 201.
Definition StatusNoContent : Z := 204.
Definition StatusBadRequest : Z := 400.
Definition StatusNotFound : Z := 404.
Definition StatusMethodNotAllowed : Z := 405.
Definition StatusInternalServerError : Z := 500.

(** [ctx.Error(msg, code)] *)
Definition ctx_Error (msg : string) (code : Z) : Response :=
  {| StatusCode := code; Body := Text msg |}.

(** The request as [requestHandler] sees it once the path is split:
    the route, the id parsed by [strconv.Atoi], and what
    [ctx.MultipartForm()] yields for the body (an error or a form). *)
Inductive Request :=
  | GET_todos
  | POST_todos (body : string + Form)
  | GET_todo (id : Z)
  | PUT_todo (id : Z) (body : string + Form)
  | DELETE_todo (id : Z).

(** ** The outside world *)

(** What the operating system answers during one call of
    [saveUploadedFile]: the error of [fileHeader.Open], the reading of
    [time.Now().UnixNano()], the error of [os.Create] and the error of
    [io.Copy] ([None] is Go's [nil] error). *)
Record Syscalls := mkSyscalls {
  Open_err : option string;
  UnixNano : Z;
  Create_err : option string;
  Copy_err : option string
}.

(** [calls] counts the calls of [saveUploadedFile] made so far and
    [disk] maps the paths of the files created to their contents
    ([os.Create] truncates, [io.Copy] then writes the upload; a file
    whose copy failed is kept as created). *)
Record World := mkWorld {
  calls : nat;
  disk : gmap string string
}.

Definition boot : World := {| calls := 0; disk := ∅ |}.

(** [vals, ok := m[key]; ok && len(vals) > 0] then [vals[0]], else [dflt]. *)
Definition firstValue (m : gmap string (list string)) (key dflt : string) : string :=
  match m !! key with
  | Some (v :: _) => v
  | _ => dflt
  end.

(** The error, if any, that a call of [saveUploadedFile] returns when
    the operating system answers [sys]: the first of the three steps
    that fails. *)
Definition save_error (sys : Syscalls) : option string :=
  match Open_err sys with
  | Some err => Some err
  | None => match Create_err sys with
            | Some err => Some err
            | None => Copy_err sys
            end
  end.

Section Handlers.

(** [json.Unmarshal([]byte(s), &subtasks)] is the standard library's
    decoder: [None] when it returns an error. *)
Variable json_Unmarshal : string → option (list Subtask).

(** [os n] is what the operating system answers during the [n]-th call
    of [saveUploadedFile]. *)
Variable os : nat → Syscalls.

(** ** FileSink *)

Definition saveUploadedFile (fileHeader : FileHeader) (w : World)
    : (string + string) * World :=
  let sys := os (calls w) in
  let w := {| calls := S (calls w); disk := disk w |} in
  match Open_err sys with
  | Some err => (inl err, w)
  | None =>
      let filename := pretty (UnixNano sys) +:+ "_" +:+ Filename fileHeader in
      let filePath := filepath_Join ["uploads"; filename] in
      match Create_err sys with
      | Some err => (inl err, w)
      | None =>
          let w := {| calls := calls w; disk := <[filePath := EmptyString]> (disk w) |} in
          match Copy_err sys with
          | Some err => (inl err, w)
          | None =>
              (inr filePath,
               {| calls := calls w; disk := <[filePath := Content fileHeader]> (disk w) |})
          end
      end
  end.

(** The [for _, fileHeader := range files] loop shared by [createTodo]
    and [updateTodo]: it stops at the first file that cannot be saved. *)
Fixpoint saveImages (files : list FileHeader) (images : list string) (w : World)
    : (string + list string) * World :=
  match files with
  | [] => (inr images, w)
  | fileHeader :: rest =>
      match saveUploadedFile fileHeader w with
      | (inl err, w') => (inl err, w')
      | (inr savedPath, w') => saveImages rest (images ++ [savedPath]) w'
      end
  end.

(** [if files, ok := mForm.File["images"]; ok { ... }] *)
Definition processImages (mForm : Form) (w : World) : (string + list string) * World :=
  match File mForm !! "images" with
  | Some files => saveImages files [] w
  | None => (inr [], w)
  end.

(** [var subtasks []Subtask], decoded by [json.Unmarshal] unless
    [subtasksStr] is the empty string. *)
Definition parseSubtasks (subtasksStr : string) : option (list Subtask) :=
  if decide (subtasksStr = EmptyString) then Some [] else json_Unmarshal subtasksStr.

(** ** Store operations *)

(** [getTodos] lists the values of the map.  Go ranges over a map in
    an order of its choosing; the list below is one such order, and
    what is stated about listings is stated for every arrangement of
    it (see [gone]). *)
Definition getTodos (st : Store) : Response :=
  {| StatusCode := StatusOK; Body := JSONTodos (map_to_list (todos st)).*2 |}.

Definition getTodo (id : Z) (st : Store) : Response :=
  match todos st !! id with
  | None => ctx_Error "Todo not found" StatusNotFound
  | Some todo => {| StatusCode := StatusOK; Body := JSONTodo todo |}
  end.

Definition createTodo (body : string + Form) (st : Store) (w : World)
    : Response * Store * World :=
  match body with
  | inl err => (ctx_Error err StatusBadRequest, st, w)
  | inr mForm =>
      let title := firstValue (Value mForm) "title" EmptyString in
      let description := firstValue (Value mForm) "description" EmptyString in
      let subtasksStr := firstValue (Value mForm) "subtasks" EmptyString in
      match parseSubtasks subtasksStr with
      | None => (ctx_Error "Invalid subtasks format" StatusBadRequest, st, w)
      | Some subtasks =>
          match processImages mForm w with
          | (inl err, w') => (ctx_Error err StatusInternalServerError, st, w')
          | (inr images, w') =>
              let completed := checkAllSubtasksCompleted subtasks in
              let id := nextID st in
              let newTodo :=
                {| Todo_ID := id; Todo_Title := title; Todo_Description := description;
                   Todo_Completed := completed; Todo_Images := images;
                   Todo_Subtasks := subtasks |} in
              ({| StatusCode := StatusCreated; Body := JSONTodo newTodo |},
               {| todos := <[id := newTodo]> (todos st); nextID := wrap_int (nextID st + 1) |},
               w')
          end
      end
  end.

Definition updateTodo (id : Z) (body : string + Form) (st : Store) (w : World)
    : Response * Store * World :=
  match todos st !! id with
  | None => (ctx_Error "Todo not found" StatusNotFound, st, w)
  | Some todo =>
      match body with
      | inl err => (ctx_Error err StatusBadRequest, st, w)
      | inr mForm =>
          let title := firstValue (Value mForm) "title" (Todo_Title todo) in
          let description := firstValue (Value mForm) "description" (Todo_Description todo) in
          let subtasksStr := firstValue (Value mForm) "subtasks" EmptyString in
          match parseSubtasks subtasksStr with
          | None => (ctx_Error "Invalid subtasks format" StatusBadRequest, st, w)
          | Some subtasks =>
              match processImages mForm w with
              | (inl err, w') => (ctx_Error err StatusInternalServerError, st, w')
              | (inr images, w') =>
                  let todo' :=
                    {| Todo_ID := Todo_ID todo; Todo_Title := title;
                       Todo_Description := description;
                       Todo_Completed := checkAllSubtasksCompleted subtasks;
                       Todo_Images := images; Todo_Subtasks := subtasks |} in
                  ({| StatusCode := StatusOK; Body := JSONTodo todo' |},
                   {| todos := <[id := todo']> (todos st); nextID := nextID st |},
                   w')
              end
          end
      end
  end.

Definition deleteTodo (id : Z) (st : Store) : Response * Store :=
  match todos st !! id with
  | None => (ctx_Error "Todo not found" StatusNotFound, st)
  | Some _ =>
      ({| StatusCode := StatusNoContent; Body := NoBody |},
       {| todos := delete id (todos st); nextID := nextID st |})
  end.

(** The dispatch of [requestHandler] on a routed request. *)
Definition requestHandler (r : Request) (st : Store) (w : World)
    : Response * Store * World :=
  match r with
  | GET_todos => (getTodos st, st, w)
  | POST_todos body => createTodo body st w
  | GET_todo id => (getTodo id st, st, w)
  | PUT_todo id body => updateTodo id body st w
  | DELETE_todo id => let '(resp, st') := deleteTodo id st in (resp, st', w)
  end.

(** The server handling a sequence of requests one after the other,
    with the responses in the order of the requests. *)
Fixpoint serve (rs : list Request) (st : Store) (w : World)
    : list Response * Store * World :=
  match rs with
  | [] => ([], st, w)
  | r :: rs' =>
      let '(resp, st', w') := requestHandler r st w in
      let '(resps, st'', w'') := serve rs' st' w' in
      (resp :: resps, st'', w'')
  end.

(** The reference the [n]-th call of [saveUploadedFile] returns for
    [fileHeader] when it succeeds. *)
Definition savedPath (n : nat) (fileHeader : FileHeader) : string :=
  filepath_Join ["uploads"; pretty (UnixNano (os n)) +:+ "_" +:+ Filename fileHeader].

(** The references of a batch whose first file is saved by call [n]. *)
Definition references (n : nat) (files : list FileHeader) : list string :=
  imap (λ i fileHeader, savedPath (n + i) fileHeader) files.

(** The record an operation is aimed at: the one stored under the id
    that Create is about to assign, or under the id in the path. *)
Definition target (r : Request) (st : Store) : option Z :=
  match r with
  | POST_todos _ => Some (nextID st)
  | PUT_todo id _ | DELETE_todo id => Some id
  | GET_todos | GET_todo _ => None
  end.

End Handlers.

(** ** Observations on runs *)

(** The id a response to [POST /todos] hands out: the [id] field of the
    todo in the body of a 201 response. *)
Definition issued_id (r : Request) (resp : Response) : option Z :=
  match r, Body resp with
  | POST_todos _, JSONTodo t =>
      if decide (StatusCode resp = StatusCreated) then Some (Todo_ID t) else None
  | _, _ => None
  end.

(** The ids handed out during a run, in the order of issuance. *)
Fixpoint issued_ids (rs : list Request) (resps : list Response) : list Z :=
  match rs, resps with
  | r :: rs', resp :: resps' =>
      match issued_id r resp with
      | Some id => id :: issued_ids rs' resps'
      | None => issued_ids rs' resps'
      end
  | _, _ => []
  end.

(** The derivation rule of the specification, as a proposition. *)
Definition all_done (subtasks : list Subtask) : Prop :=
  subtasks ≠ [] ∧ Forall (λ s, Subtask_Completed s = true) subtasks.

(** Every stored record carries the key it is stored under. *)
Definition keyed (st : Store) : Prop :=
  ∀ k t, todos st !! k = Some t → Todo_ID t = k.

(** What a client sees of an id that is not there: Get answers 404 and
    no listing shows a todo with that id.  Go traverses a map in an
    order of its choosing, so a listing is any arrangement of the list
    that [getTodos] of the embedding returns. *)
Definition gone (id : Z) (st : Store) : Prop :=
  getTodo id st = ctx_Error "Todo not found" StatusNotFound
  ∧ ∀ listed l, Body (getTodos st) = JSONTodos listed → l ≡ₚ listed →
      ∀ t, t ∈ l → Todo_ID t ≠ id.

(** ** Bytes of a string *)

(** Whether the byte [c] occurs in [s]. *)
Fixpoint occurs (c : ascii) (s : string) : bool :=
  match s with
  | EmptyString => false
  | String d rest => Ascii.eqb d c || occurs c rest
  end.

(** What follows the first occurrence of [c] in [s]. *)
Fixpoint after_first (c : ascii) (s : string) : string :=
  match s with
  | EmptyString => EmptyString
  | String d rest => if Ascii.eqb d c then rest else after_first c rest
  end.

(** The original filename read back from a reference: what follows the
    first underscore. *)
Definition originalFilename (reference : string) : string :=
  after_first "_" reference.

(** ** A concrete environment *)

(** The examples at the end of the file run the handlers in a concrete
    environment: a decoder that knows the texts the examples send, and
    three behaviours of the operating system. *)

Definition dquote : string := String "034" EmptyString.

(** The subtasks text of the end-to-end example: one subtask, titled
    [go], completed. *)
Definition go_done_json : string :=
  "[{" +:+ dquote +:+ "title" +:+ dquote +:+ ":" +:+ dquote +:+ "go" +:+ dquote
  +:+ "," +:+ dquote +:+ "completed" +:+ dquote +:+ ":true}]".

Definition go_done : list Subtask :=
  [{| Subtask_ID := 0; Subtask_Title := "go"; Subtask_Completed := true |}].

(** What [json.Unmarshal] answers on the texts the examples send: the
    empty array, the text above, and the text of [garbled] below, which
    it rejects.  The examples send no other text; the theorems hold for
    every decoder. *)
Definition decode (s : string) : option (list Subtask) :=
  if decide (s = "[]") then Some []
  else if decide (s = go_done_json) then Some go_done
  else None.

(** A system where nothing fails and the clock advances between calls. *)
Definition os_steady (n : nat) : Syscalls :=
  {| Open_err := None; UnixNano := 1730600000000000000 + 1000 * Z.of_nat n;
     Create_err := None; Copy_err := None |}.

(** A system whose disk is full when the second file is created. *)
Definition os_disk_full (n : nat) : Syscalls :=
  {| Open_err := None; UnixNano := 1730600000000000000 + 1000 * Z.of_nat n;
     Create_err := if (n =? 1)%nat then Some "no space left on device" else None;
     Copy_err := None |}.

(** A system whose clock gives the same reading to consecutive calls
    (a clock of coarse resolution, or one that was set back). *)
Definition os_coarse (n : nat) : Syscalls :=
  {| Open_err := None; UnixNano := 1730600000000000000;
     Create_err := None; Copy_err := None |}.

(** A form with no field at all. *)
Definition blank : Form := {| Value := ∅; File := ∅ |}.

(** The request of the end-to-end example. *)
Definition milk : Form :=
  {| Value := {[ "title" := ["Buy milk"]; "subtasks" := [go_done_json] ]};
     File := ∅ |}.

(** An update that sends an empty title and nothing else. *)
Definition retitle_empty : Form :=
  {| Value := {[ "title" := [EmptyString] ]}; File := ∅ |}.

(** An update that sends a description and two files. *)
Definition describe_with_photos : Form :=
  {| Value := {[ "description" := ["semi-skimmed"] ]};
     File := {[ "images" := [ {| Filename := "a.png"; Content := "first" |};
                              {| Filename := "b.png"; Content := "second" |} ] ]} |}.

(** A request whose subtasks text is not JSON. *)
Definition garbled : Form :=
  {| Value := {[ "title" := ["Buy milk"]; "subtasks" := ["[{"] ]}; File := ∅ |}.

(** Two files with the same name in one request. *)
Definition same_name_twice : Form :=
  {| Value := ∅;
     File := {[ "images" := [ {| Filename := "photo.png"; Content := "first" |};
                              {| Filename := "photo.png"; Content := "second" |} ] ]} |}.

(** The store and the world once the todo of the example is created. *)
Definition milk_store : Store := (createTodo decode os_steady (inr milk) initial boot).1.2.
Definition milk_world : World := (createTodo decode os_steady (inr milk) initial boot).2.

(** The record stored by the example. *)
Definition milk_todo : Todo :=
  {| Todo_ID := 1; Todo_Title := "Buy milk"; Todo_Description := EmptyString;
     Todo_Completed := true; Todo_Images := []; Todo_Subtasks := go_done |}.

(** The record a Create with the blank form stores under [id]. *)
Definition blank_todo (id : Z) : Todo :=
  {| Todo_ID := id; Todo_Title := EmptyString; Todo_Description := EmptyString;
     Todo_Completed := false; Todo_Images := []; Todo_Subtasks := [] |}.

(** A Create, the Delete of the todo it made, and then as many Creates
    as an [int] has values: 2^64. *)
Definition reissue_run : list Request :=
  POST_todos (inr blank) :: DELETE_todo 1
  :: replicate (S (Z.to_nat (2 ^ intSize - 1))) (POST_todos (inr blank)).

(** As many Creates as an [int] has values, none of them deleted. *)
Definition full_circle_run : list Request :=
  replicate (S (Z.to_nat (2 ^ intSize - 1))) (POST_todos (inr blank)).

(** As many Creates as it takes for the counter to pass [maxInt]. *)
Definition overflow_run : list Request :=
  replicate (Z.to_nat (maxInt + 1)) (POST_todos (inr blank)).

(** ** Routing *)

(** [strings.HasPrefix(s, p)] and [s[len(p):]] in one: what follows the
    prefix [p] in [s], if [s] starts with [p]. *)
Fixpoint strip_prefix (p s : string) : option string :=
  match p with
  | EmptyString => Some s
  | String c p' =>
      match s with
      | String d s' => if Ascii.eqb c d then strip_prefix p' s' else None
      | EmptyString => None
      end
  end.

(** [ch -= '0'; if ch > 9 { error }]: the value of a decimal digit. *)
Definition digit_value (ch : ascii) : option Z :=
  let n := Z.of_N (N_of_ascii ch) in
  if decide (48 ≤ n ≤ 57) then Some (n - 48) else None.

(** [n = n*10 + int(ch)] over the bytes of [s]. *)
Fixpoint parse_digits (s : string) (n : Z) : option Z :=
  match s with
  | EmptyString => Some n
  | String ch rest =>
      match digit_value ch with
      | None => None
      | Some d => parse_digits rest (10 * n + d)
      end
  end.

(** [strconv.Atoi]: an optional sign, then at least one decimal digit
    and nothing else; a value that does not fit an [int] is an error
    ([None] stands for both of its errors, syntax and range). *)
Definition strconv_Atoi (s : string) : option Z :=
  match s with
  | EmptyString => None
  | String c rest =>
      let neg := Ascii.eqb c "-" in
      let digits := if neg || Ascii.eqb c "+" then rest else s in
      match digits with
      | EmptyString => None
      | String _ _ =>
          match parse_digits digits 0 with
          | None => None
          | Some un =>
              let n := if neg then - un else un in
              if decide (minInt ≤ n ≤ maxInt) then Some n else None
          end
      end
  end.

(** The routing part of [requestHandler]: the path and the method pick
    a handler, or an error is written at once. *)
Definition route (method path : string) (body : string + Form) : Response + Request :=
  if decide (path = "/todos") then
    if decide (method = "GET") then inr GET_todos
    else if decide (method = "POST") then inr (POST_todos body)
    else inl (ctx_Error "Method not allowed" StatusMethodNotAllowed)
  else
    match strip_prefix "/todos/" path with
    | Some idStr =>
        match strconv_Atoi idStr with
        | None => inl (ctx_Error "Invalid ID" StatusBadRequest)
        | Some id =>
            if decide (method = "GET") then inr (GET_todo id)
            else if decide (method = "PUT") then inr (PUT_todo id body)
            else if decide (method = "DELETE") then inr (DELETE_todo id)
            else inl (ctx_Error "Method not allowed" StatusMethodNotAllowed)
        end
    | None => inl (ctx_Error "Not found" StatusNotFound)
    end.

Section Router.

Variable json_Unmarshal : string → option (list Subtask).
Variable os : nat → Syscalls.

(** [requestHandler] of [main.go] from the method and the path on. *)
Definition handleRequest (method path : string) (body : string + Form)
    (st : Store) (w : World) : Response * Store * World :=
  match route method path body with
  | inl resp => (resp, st, w)
  | inr r => requestHandler json_Unmarshal os r st w
  end.

End Router.

(** ** Further observations *)

(** The number of Deletes of a run that removed a record. *)
Fixpoint deletions (rs : list Request) (resps : list Response) : nat :=
  match rs, resps with
  | r :: rs', resp :: resps' =>
      match r with
      | DELETE_todo _ =>
          if decide (StatusCode resp = StatusNoContent)
          then S (deletions rs' resps') else deletions rs' resps'
      | _ => deletions rs' resps'
      end
  | _, _ => 0%nat
  end.

(** Every image a stored todo refers to is a file on disk. *)
Definition images_on_disk (st : Store) (w : World) : Prop :=
  ∀ k t reference,
    todos st !! k = Some t → reference ∈ Todo_Images t →
    is_Some (disk w !! reference).

(** The flag of every stored todo is the one derived from its subtasks. *)
Definition flags_derived (st : Store) : Prop :=
  ∀ k t, todos st !! k = Some t →
    Todo_Completed t = checkAllSubtasksCompleted (Todo_Subtasks t).

(** A clock that never gives the same reading twice. *)
Definition clock_advances (os : nat → Syscalls) : Prop :=
  ∀ n m, n ≠ m → UnixNano (os n) ≠ UnixNano (os m).

(** A batch whose filenames are free of slashes. *)
Definition plain_names (files : list FileHeader) : Prop :=
  Forall (λ fileHeader, occurs "/" (Filename fileHeader) = false) files.

(** * Properties *)

Section Properties.

Variable json_Unmarshal : string → option (list Subtask).
Variable os : nat → Syscalls.

Local Abbreviation saveUploadedFile := (saveUploadedFile os).
Local Abbreviation saveImages := (saveImages os).
Local Abbreviation processImages := (processImages os).
Local Abbreviation parseSubtasks := (parseSubtasks json_Unmarshal).
Local Abbreviation createTodo := (createTodo json_Unmarshal os).
Local Abbreviation updateTodo := (updateTodo json_Unmarshal os).
Local Abbreviation requestHandler := (requestHandler json_Unmarshal os).
Local Abbreviation serve := (serve json_Unmarshal os).
Local Abbreviation savedPath := (savedPath os).
Local Abbreviation references := (references os).

(** *** The derivation rule *)

Lemma allCompleted_loop_Forall subtasks :
  allCompleted_loop subtasks = true ↔
  Forall (λ s, Subtask_Completed s = true) subtasks.
Proof.
  induction subtasks as [|s rest IH]; simpl.
  - split; [constructor | done].
  - rewrite Forall_cons. destruct (Subtask_Completed s); simpl.
    + rewrite IH. tauto.
    + split; [done | intros [? _]; done].
Qed.

Lemma checkAllSubtasksCompleted_all_done subtasks :
  checkAllSubtasksCompleted subtasks = true ↔ all_done subtasks.
Proof.
  unfold checkAllSubtasksCompleted, all_done.
  destruct subtasks as [|s rest].
  - simpl. split; [done | intros [? _]; done].
  - change (length (s :: rest) =? 0)%nat with false. cbv iota.
    rewrite allCompleted_loop_Forall. split; [by split | by intros [_ ?]].
Qed.

(** *** What each handler can do: one case per [return] of the source *)

Lemma createTodo_cases body st w resp st' w' :
  createTodo body st w = (resp, st', w') →
  (StatusCode resp = StatusBadRequest ∧ st' = st ∧ w' = w)
  ∨ (∃ mForm err,
        body = inr mForm ∧ processImages mForm w = (inl err, w') ∧
        resp = ctx_Error err StatusInternalServerError ∧ st' = st)
  ∨ (∃ mForm subtasks images newTodo,
        body = inr mForm ∧
        parseSubtasks (firstValue (Value mForm) "subtasks" EmptyString) = Some subtasks ∧
        processImages mForm w = (inr images, w') ∧
        newTodo = {| Todo_ID := nextID st;
                     Todo_Title := firstValue (Value mForm) "title" EmptyString;
                     Todo_Description := firstValue (Value mForm) "description" EmptyString;
                     Todo_Completed := checkAllSubtasksCompleted subtasks;
                     Todo_Images := images; Todo_Subtasks := subtasks |} ∧
        resp = {| StatusCode := StatusCreated; Body := JSONTodo newTodo |} ∧
        st' = {| todos := <[nextID st := newTodo]> (todos st);
                 nextID := wrap_int (nextID st + 1) |}).
Proof.
  unfold createTodo. destruct body as [err|mForm].
  { intros [= <- <- <-]. by left. }
  destruct (parseSubtasks _) as [subtasks|] eqn:Hparse.
  2:{ intros [= <- <- <-]. by left. }
  destruct (processImages mForm w) as [[err|images] w1] eqn:Himg.
  - intros [= <- <- <-]. right; left. by exists mForm, err.
  - intros [= <- <- <-]. right; right. by eexists mForm, subtasks, images, _.
Qed.

Lemma updateTodo_cases id body st w resp st' w' :
  updateTodo id body st w = (resp, st', w') →
  (todos st !! id = None ∧ resp = ctx_Error "Todo not found" StatusNotFound ∧
     st' = st ∧ w' = w)
  ∨ (is_Some (todos st !! id) ∧ StatusCode resp = StatusBadRequest ∧ st' = st ∧ w' = w)
  ∨ (∃ mForm err,
        is_Some (todos st !! id) ∧
        body = inr mForm ∧ processImages mForm w = (inl err, w') ∧
        resp = ctx_Error err StatusInternalServerError ∧ st' = st)
  ∨ (∃ todo mForm subtasks images todo',
        todos st !! id = Some todo ∧ body = inr mForm ∧
        parseSubtasks (firstValue (Value mForm) "subtasks" EmptyString) = Some subtasks ∧
        processImages mForm w = (inr images, w') ∧
        todo' = {| Todo_ID := Todo_ID todo;
                   Todo_Title := firstValue (Value mForm) "title" (Todo_Title todo);
                   Todo_Description :=
                     firstValue (Value mForm) "description" (Todo_Description todo);
                   Todo_Completed := checkAllSubtasksCompleted subtasks;
                   Todo_Images := images; Todo_Subtasks := subtasks |} ∧
        resp = {| StatusCode := StatusOK; Body := JSONTodo todo' |} ∧
        st' = {| todos := <[id := todo']> (todos st); nextID := nextID st |}).
Proof.
  unfold updateTodo. destruct (todos st !! id) as [todo|] eqn:Hid.
  2:{ intros [= <- <- <-]. by left. }
  destruct body as [err|mForm].
  { intros [= <- <- <-]. right; left. eauto. }
  destruct (parseSubtasks _) as [subtasks|] eqn:Hparse.
  2:{ intros [= <- <- <-]. right; left. eauto. }
  destruct (processImages mForm w) as [[err|images] w1] eqn:Himg.
  - intros [= <- <- <-]. do 2 right; left. exists mForm, err. eauto.
  - intros [= <- <- <-]. do 3 right. by eexists todo, mForm, subtasks, images, _.
Qed.

Lemma deleteTodo_cases id st resp st' :
  deleteTodo id st = (resp, st') →
  (todos st !! id = None ∧ resp = ctx_Error "Todo not found" StatusNotFound ∧ st' = st)
  ∨ (is_Some (todos st !! id) ∧
     resp = {| StatusCode := StatusNoContent; Body := NoBody |} ∧
     st' = {| todos := delete id (todos st); nextID := nextID st |}).
Proof.
  unfold deleteTodo. destruct (todos st !! id) eqn:Hid; intros [= <- <-]; eauto.
Qed.

(** C1. The completed flag is [true] exactly when the subtask sequence
    is non-empty and all of its elements are completed, so it is
    [false] for the empty sequence; and this is the flag of the record
    that a successful Create (201) or Update (200) stores and returns. *)
Theorem completed_is_derived :
  (∀ subtasks, checkAllSubtasksCompleted subtasks = true ↔ all_done subtasks)
  ∧ checkAllSubtasksCompleted [] = false
  ∧ (∀ body st w resp st' w',
        createTodo body st w = (resp, st', w') →
        StatusCode resp = StatusCreated →
        ∃ mForm t,
          body = inr mForm ∧
          parseSubtasks (firstValue (Value mForm) "subtasks" EmptyString)
            = Some (Todo_Subtasks t) ∧
          Body resp = JSONTodo t ∧ todos st' !! nextID st = Some t ∧
          (Todo_Completed t = true ↔ all_done (Todo_Subtasks t)))
  ∧ (∀ id body st w resp st' w',
        updateTodo id body st w = (resp, st', w') →
        StatusCode resp = StatusOK →
        ∃ mForm t,
          body = inr mForm ∧
          parseSubtasks (firstValue (Value mForm) "subtasks" EmptyString)
            = Some (Todo_Subtasks t) ∧
          Body resp = JSONTodo t ∧ todos st' !! id = Some t ∧
          (Todo_Completed t = true ↔ all_done (Todo_Subtasks t))).
Proof.
  split; [exact checkAllSubtasksCompleted_all_done|].
  split; [reflexivity|]. split.
  - intros body st w resp st' w' Hrun Hcode.
    destruct (createTodo_cases _ _ _ _ _ _ Hrun)
      as [(Hbad & _)|[(m & e & _ & _ & -> & _)
         |(m & s & i & t & -> & Hparse & _ & -> & -> & ->)]].
    + rewrite Hbad in Hcode. discriminate.
    + discriminate.
    + eexists m, _. split; [reflexivity|].
      split; [|split; [reflexivity|split; [apply lookup_insert_eq|]]].
      * exact Hparse.
      * apply checkAllSubtasksCompleted_all_done.
  - intros id body st w resp st' w' Hrun Hcode.
    destruct (updateTodo_cases _ _ _ _ _ _ _ Hrun)
      as [(_ & -> & _)|[(_ & Hbad & _)|[(m & e & _ & _ & _ & -> & _)
         |(t0 & m & s & i & t & _ & -> & Hparse & _ & -> & -> & ->)]]].
    + discriminate.
    + rewrite Hbad in Hcode. discriminate.
    + discriminate.
    + eexists m, _. split; [reflexivity|].
      split; [|split; [reflexivity|split; [apply lookup_insert_eq|]]].
      * exact Hparse.
      * apply checkAllSubtasksCompleted_all_done.
Qed.

(** *** Saving the uploaded files *)

Lemma saveUploadedFile_calls fileHeader w r w' :
  saveUploadedFile fileHeader w = (r, w') → calls w' = S (calls w).
Proof.
  unfold saveUploadedFile.
  destruct (os (calls w)) as [[?|] ? [?|] [?|]]; simpl; by intros [= <- <-].
Qed.

Lemma saveUploadedFile_inr fileHeader w savedPath' w' :
  saveUploadedFile fileHeader w = (inr savedPath', w') ↔
  save_error (os (calls w)) = None ∧ savedPath' = savedPath (calls w) fileHeader ∧
  w' = {| calls := S (calls w);
          disk := <[savedPath' := Content fileHeader]>
                    (<[savedPath' := EmptyString]> (disk w)) |}.
Proof.
  unfold saveUploadedFile, save_error, savedPath.
  destruct (os (calls w)) as [[?|] ? [?|] [?|]]; simpl;
    split; try (by intros [= <- <-]); try (by intros [[=] _]).
  by intros (_ & -> & ->).
Qed.

Lemma saveUploadedFile_inl fileHeader w err w' :
  saveUploadedFile fileHeader w = (inl err, w') → save_error (os (calls w)) = Some err.
Proof.
  unfold saveUploadedFile, save_error.
  destruct (os (calls w)) as [[?|] ? [?|] [?|]]; simpl; by intros [= <- <-].
Qed.

Lemma references_cons n fileHeader files :
  references n (fileHeader :: files) = savedPath n fileHeader :: references (S n) files.
Proof.
  unfold references. rewrite imap_cons. f_equal.
  - f_equal. lia.
  - apply imap_ext. intros i x _. simpl. f_equal. lia.
Qed.

Lemma saveImages_inr files images w images' w' :
  saveImages files images w = (inr images', w') →
  images' = images ++ references (calls w) files ∧
  (calls w' = calls w + length files)%nat ∧
  ∀ i, (i < length files)%nat → save_error (os (calls w + i)) = None.
Proof.
  revert images w. induction files as [|fileHeader rest IH]; intros images w; simpl.
  - intros [= <- <-]. rewrite app_nil_r. repeat split; [lia | intros; lia].
  - destruct (saveUploadedFile fileHeader w) as [[err|p] w1] eqn:Hsave; [done|].
    intros Hrest. apply IH in Hrest as (-> & Hcalls & Hok).
    apply saveUploadedFile_inr in Hsave as (Hfirst & -> & ->). simpl in *.
    rewrite references_cons, <- app_assoc. repeat split; [lia|].
    intros [|i] Hi.
    + by rewrite Nat.add_0_r.
    + replace (calls w + S i)%nat with (S (calls w) + i)%nat by lia. apply Hok. lia.
Qed.

(** The loop fails exactly with the error of the first file that
    cannot be saved. *)
Lemma saveImages_first_failure files images w i err :
  (i < length files)%nat →
  save_error (os (calls w + i)) = Some err →
  (∀ j, (j < i)%nat → save_error (os (calls w + j)) = None) →
  ∃ w', saveImages files images w = (inl err, w').
Proof.
  revert images w i. induction files as [|fileHeader rest IH]; intros images w i; simpl.
  { lia. }
  intros Hi Herr Hbefore.
  destruct (saveUploadedFile fileHeader w) as [[err'|p] w1] eqn:Hsave.
  - apply saveUploadedFile_inl in Hsave. destruct i as [|i].
    + rewrite Nat.add_0_r in Herr. exists w1. congruence.
    + specialize (Hbefore 0%nat ltac:(lia)). rewrite Nat.add_0_r in Hbefore. congruence.
  - pose proof (saveUploadedFile_calls _ _ _ _ Hsave) as Hcalls.
    apply saveUploadedFile_inr in Hsave as (Hfirst & _). destruct i as [|i].
    + rewrite Nat.add_0_r in Herr. congruence.
    + apply (IH _ w1 i); [lia | |].
      * rewrite Hcalls. by replace (S (calls w) + i)%nat with (calls w + S i)%nat by lia.
      * intros j Hj. rewrite Hcalls.
        replace (S (calls w) + j)%nat with (calls w + S j)%nat by lia. apply Hbefore. lia.
Qed.

Lemma firstValue_absent (m : gmap string (list string)) key dflt :
  m !! key = None → firstValue m key dflt = dflt.
Proof. unfold firstValue. by intros ->. Qed.

Lemma firstValue_supplied (m : gmap string (list string)) key dflt v vals :
  m !! key = Some (v :: vals) → firstValue m key dflt = v.
Proof. unfold firstValue. by intros ->. Qed.

(** *** Update: the per-field policy *)

(** An [updateTodo] that answers 200 found the todo, decoded the
    subtasks and saved every file. *)
Lemma updateTodo_ok id body st w resp st' w' :
  updateTodo id body st w = (resp, st', w') →
  StatusCode resp = StatusOK →
  ∃ todo mForm subtasks images todo',
    todos st !! id = Some todo ∧ body = inr mForm ∧
    parseSubtasks (firstValue (Value mForm) "subtasks" EmptyString) = Some subtasks ∧
    processImages mForm w = (inr images, w') ∧
    todo' = {| Todo_ID := Todo_ID todo;
               Todo_Title := firstValue (Value mForm) "title" (Todo_Title todo);
               Todo_Description :=
                 firstValue (Value mForm) "description" (Todo_Description todo);
               Todo_Completed := checkAllSubtasksCompleted subtasks;
               Todo_Images := images; Todo_Subtasks := subtasks |} ∧
    resp = {| StatusCode := StatusOK; Body := JSONTodo todo' |} ∧
    st' = {| todos := <[id := todo']> (todos st); nextID := nextID st |}.
Proof.
  intros Hrun Hcode.
  destruct (updateTodo_cases _ _ _ _ _ _ _ Hrun)
    as [(_ & -> & _)|[(_ & Hbad & _)|[(m & e & _ & _ & _ & -> & _)|Hok]]];
    [discriminate | rewrite Hbad in Hcode; discriminate | discriminate | exact Hok].
Qed.

(** C3, as the code has it. A successful Update leaves the stored title
    (description) at its current value when the request carries no
    value for the field, and otherwise replaces it with the first value
    supplied, whatever that value is: an empty string supplied as the
    title becomes the stored title. *)
Theorem update_text_fields id mForm st w todo resp st' w' :
  todos st !! id = Some todo →
  updateTodo id (inr mForm) st w = (resp, st', w') →
  StatusCode resp = StatusOK →
  ∃ todo', todos st' !! id = Some todo' ∧
    Todo_Title todo' =
      match Value mForm !! "title" with
      | Some (v :: _) => v
      | _ => Todo_Title todo
      end ∧
    Todo_Description todo' =
      match Value mForm !! "description" with
      | Some (v :: _) => v
      | _ => Todo_Description todo
      end.
Proof.
  intros Hid Hrun Hcode.
  destruct (updateTodo_ok _ _ _ _ _ _ _ Hrun Hcode)
    as (t0 & m & s & i & t & Hid' & [= <-] & _ & _ & -> & _ & ->).
  assert (t0 = todo) as -> by congruence.
  eexists. split; [apply lookup_insert_eq|]. by split.
Qed.

(** C4. After a successful Update the stored images are exactly the
    references returned for the files of this request's [images] field,
    in the order submitted: nothing of the images stored before is
    kept, and without an [images] field the list is empty. *)
Theorem update_replaces_images id mForm st w todo resp st' w' :
  todos st !! id = Some todo →
  updateTodo id (inr mForm) st w = (resp, st', w') →
  StatusCode resp = StatusOK →
  ∃ todo', todos st' !! id = Some todo' ∧
    Todo_Images todo' =
      match File mForm !! "images" with
      | Some files => references (calls w) files
      | None => []
      end.
Proof.
  intros Hid Hrun Hcode.
  destruct (updateTodo_ok _ _ _ _ _ _ _ Hrun Hcode)
    as (t0 & m & s & i & t & _ & [= <-] & _ & Himg & -> & _ & ->).
  eexists. split; [apply lookup_insert_eq|]. simpl.
  unfold processImages in Himg.
  destruct (File mForm !! "images") as [files|].
  - by apply saveImages_inr in Himg as (-> & _).
  - by injection Himg as <- _.
Qed.

(** C5. A successful Update whose subtasks payload is empty (the field
    is absent, or its first value is the empty string) leaves the todo
    with no subtasks and with [completed = false], whatever the flag
    was before. *)
Theorem update_empty_subtasks id mForm st w todo resp st' w' :
  todos st !! id = Some todo →
  firstValue (Value mForm) "subtasks" EmptyString = EmptyString →
  updateTodo id (inr mForm) st w = (resp, st', w') →
  StatusCode resp = StatusOK →
  ∃ todo', todos st' !! id = Some todo' ∧
    Todo_Subtasks todo' = [] ∧ Todo_Completed todo' = false.
Proof.
  intros Hid Hempty Hrun Hcode.
  destruct (updateTodo_ok _ _ _ _ _ _ _ Hrun Hcode)
    as (t0 & m & s & i & t & _ & [= <-] & Hparse & _ & -> & _ & ->).
  rewrite Hempty in Hparse. unfold parseSubtasks in Hparse.
  rewrite decide_True in Hparse by done. injection Hparse as <-.
  eexists. split; [apply lookup_insert_eq|]. by split.
Qed.

(** C6, as the code has it. When the subtasks field is a non-empty
    string that [json.Unmarshal] rejects, Create answers 400, and so
    does Update of a stored id, while Update of an id that is not
    stored answers 404 before the form is read; in each case the store
    (collection and id counter) and the upload directory are exactly as
    before. *)
Theorem malformed_subtasks_rejected mForm st w :
  firstValue (Value mForm) "subtasks" EmptyString ≠ EmptyString →
  json_Unmarshal (firstValue (Value mForm) "subtasks" EmptyString) = None →
  createTodo (inr mForm) st w
    = (ctx_Error "Invalid subtasks format" StatusBadRequest, st, w)
  ∧ ∀ id,
      updateTodo id (inr mForm) st w
      = (match todos st !! id with
         | Some _ => ctx_Error "Invalid subtasks format" StatusBadRequest
         | None => ctx_Error "Todo not found" StatusNotFound
         end, st, w).
Proof.
  intros Hne Hbad.
  assert (parseSubtasks (firstValue (Value mForm) "subtasks" EmptyString) = None)
    as Hparse.
  { unfold parseSubtasks. by rewrite decide_False. }
  split.
  - unfold createTodo. by rewrite Hparse.
  - intros id. unfold updateTodo.
    destruct (todos st !! id); [by rewrite Hparse | done].
Qed.

(** *** The effect of one request on the store *)

(** A request leaves the store alone, or adds a record under the
    counter and advances it, or replaces a stored record, or removes
    one. *)
Lemma requestHandler_step r st w resp st' w' :
  requestHandler r st w = (resp, st', w') →
  (st' = st ∧ issued_id r resp = None)
  ∨ (∃ body t, r = POST_todos body ∧ issued_id r resp = Some (nextID st) ∧
        Todo_ID t = nextID st ∧
        st' = {| todos := <[nextID st := t]> (todos st);
                 nextID := wrap_int (nextID st + 1) |})
  ∨ (∃ id body t t', r = PUT_todo id body ∧ issued_id r resp = None ∧
        todos st !! id = Some t ∧ Todo_ID t' = Todo_ID t ∧
        st' = {| todos := <[id := t']> (todos st); nextID := nextID st |})
  ∨ (∃ id, r = DELETE_todo id ∧ issued_id r resp = None ∧
        is_Some (todos st !! id) ∧
        st' = {| todos := delete id (todos st); nextID := nextID st |}).
Proof.
  destruct r as [|body|id|id body|id]; simpl.
  - intros [= <- <- <-]. by left.
  - intros Hrun.
    destruct (createTodo_cases _ _ _ _ _ _ Hrun)
      as [(Hbad & -> & _)|[(m & e & _ & _ & -> & ->)|(m & s & i & t & _ & _ & _ & Ht & -> & ->)]].
    + left. split; [done|]. unfold issued_id. destruct (Body resp); try done.
      rewrite decide_False; [done | by rewrite Hbad].
    + by left.
    + right; left. exists body, t. subst t. by repeat split.
  - intros [= <- <- <-]. by left.
  - intros Hrun.
    destruct (updateTodo_cases _ _ _ _ _ _ _ Hrun)
      as [(_ & _ & -> & _)|[(_ & _ & -> & _)|[(m & e & _ & _ & _ & _ & ->)
         |(t0 & m & s & i & t & Hid & _ & _ & _ & Ht & _ & ->)]]];
      try by left.
    do 2 right; left. exists id, body, t0, t. subst t. by repeat split.
  - destruct (deleteTodo id st) as [resp0 st0] eqn:Hdel. intros [= <- <- <-].
    destruct (deleteTodo_cases _ _ _ _ Hdel) as [(_ & _ & ->)|(Hid & _ & ->)].
    + by left.
    + do 3 right. by exists id.
Qed.

Lemma requestHandler_keyed r st w resp st' w' :
  requestHandler r st w = (resp, st', w') → keyed st → keyed st'.
Proof.
  intros Hrun Hkeyed.
  destruct (requestHandler_step _ _ _ _ _ _ Hrun)
    as [(-> & _)|[(b & t & _ & _ & Ht & ->)|[(id & b & t & t' & _ & _ & Hid & Ht & ->)
       |(id & _ & _ & _ & ->)]]]; [done|..]; intros k x; simpl.
  - rewrite lookup_insert. case_decide; [|by apply Hkeyed]. intros [= <-]. congruence.
  - rewrite lookup_insert. case_decide; [|by apply Hkeyed]. intros [= <-].
    rewrite Ht. subst k. by apply Hkeyed.
  - rewrite lookup_delete. case_decide; [done | by apply Hkeyed].
Qed.

Lemma serve_keyed rs st w resps st' w' :
  serve rs st w = (resps, st', w') → keyed st → keyed st'.
Proof.
  revert st w resps. induction rs as [|r rs IH]; intros st w resps; simpl.
  { by intros [= _ <- _]. }
  destruct (requestHandler r st w) as [[resp st1] w1] eqn:Hstep.
  destruct (serve rs st1 w1) as [[resps1 st2] w2] eqn:Hrest.
  intros [= _ <- <-] Hkeyed. apply (IH _ _ _ Hrest). by eapply requestHandler_keyed.
Qed.

Lemma initial_keyed : keyed initial.
Proof. intros k t. unfold initial; simpl. by rewrite lookup_empty. Qed.

(** An id that is not stored stays so as long as no Create hands it out. *)
Lemma serve_stays_absent rs st w resps st' w' id :
  serve rs st w = (resps, st', w') →
  todos st !! id = None → id ∉ issued_ids rs resps → todos st' !! id = None.
Proof.
  revert st w resps. induction rs as [|r rs IH]; intros st w resps; simpl.
  { by intros [= _ <- _]. }
  destruct (requestHandler r st w) as [[resp st1] w1] eqn:Hstep.
  destruct (serve rs st1 w1) as [[resps1 st2] w2] eqn:Hrest.
  intros [= <- <- <-] Habsent Hnot. simpl in Hnot.
  apply (IH _ _ _ Hrest).
  - destruct (requestHandler_step _ _ _ _ _ _ Hstep)
      as [(-> & _)|[(b & t & _ & Hiss & _ & ->)|[(i & b & t & t' & _ & _ & Hi & _ & ->)
         |(i & _ & _ & _ & ->)]]]; simpl; [done|..].
    + rewrite Hiss in Hnot. rewrite lookup_insert_ne; [done|].
      intros Heq. apply Hnot. rewrite Heq. apply list_elem_of_here.
    + rewrite lookup_insert_ne; [done|]. intros Heq. congruence.
    + rewrite lookup_delete. by case_decide.
  - destruct (issued_id r resp); [|done]. intros ?. apply Hnot.
    by apply list_elem_of_further.
Qed.

(** C7. When one of the files of the [images] field cannot be saved,
    a Create or Update that got as far as saving files answers 500 with
    the error of that file, and the collection and the id counter are
    as before; a Create or Update leaves the store different from what
    it was only if every file of its batch was saved. *)
Theorem upload_failure_aborts mForm files st w i err :
  File mForm !! "images" = Some files →
  (i < length files)%nat →
  save_error (os (calls w + i)) = Some err →
  (∀ j, (j < i)%nat → save_error (os (calls w + j)) = None) →
  (∀ subtasks,
      parseSubtasks (firstValue (Value mForm) "subtasks" EmptyString) = Some subtasks →
      (∃ w', createTodo (inr mForm) st w
             = (ctx_Error err StatusInternalServerError, st, w'))
      ∧ ∀ id, is_Some (todos st !! id) →
          ∃ w', updateTodo id (inr mForm) st w
                = (ctx_Error err StatusInternalServerError, st, w'))
  ∧ (createTodo (inr mForm) st w).1.2 = st
  ∧ (∀ id, (updateTodo id (inr mForm) st w).1.2 = st)
  ∧ (∀ body resp st' w',
        createTodo body st w = (resp, st', w') → st' ≠ st →
        ∃ mForm' images, body = inr mForm' ∧ processImages mForm' w = (inr images, w'))
  ∧ (∀ id body resp st' w',
        updateTodo id body st w = (resp, st', w') → st' ≠ st →
        ∃ mForm' images, body = inr mForm' ∧ processImages mForm' w = (inr images, w')).
Proof.
  intros Hfiles Hi Herr Hbefore.
  destruct (saveImages_first_failure files [] w i err Hi Herr Hbefore) as [w1 Hsave].
  assert (processImages mForm w = (inl err, w1)) as Himg.
  { unfold processImages. by rewrite Hfiles. }
  split; [|repeat split].
  - intros subtasks Hparse. split.
    + exists w1. unfold createTodo. by rewrite Hparse, Himg.
    + intros id [todo Hid]. exists w1. unfold updateTodo.
      by rewrite Hid, Hparse, Himg.
  - unfold createTodo. destruct (parseSubtasks _); [by rewrite Himg | done].
  - intros id. unfold updateTodo. destruct (todos st !! id); [|done].
    destruct (parseSubtasks _); [by rewrite Himg | done].
  - intros body resp st' w' Hrun Hchanged.
    destruct (createTodo_cases _ _ _ _ _ _ Hrun)
      as [(_ & -> & _)|[(m & e & _ & _ & _ & ->)|(m & s & im & t & -> & _ & Hok & _)]];
      [done..|]. by exists m, im.
  - intros id body resp st' w' Hrun Hchanged.
    destruct (updateTodo_cases _ _ _ _ _ _ _ Hrun)
      as [(_ & _ & -> & _)|[(_ & _ & -> & _)|[(m & e & _ & _ & _ & _ & ->)
         |(t0 & m & s & im & t & _ & -> & _ & Hok & _)]]]; [done..|].
    by exists m, im.
Qed.

(** *** The id counter *)

Lemma wrap_int_range z : minInt ≤ wrap_int z ≤ maxInt.
Proof.
  unfold wrap_int, minInt, maxInt, intSize.
  pose proof (Z.mod_pos_bound (z + 2 ^ (64 - 1)) (2 ^ 64)). lia.
Qed.

Lemma wrap_int_id z : minInt ≤ z ≤ maxInt → wrap_int z = z.
Proof.
  unfold wrap_int, minInt, maxInt, intSize. intros Hz.
  rewrite Z.mod_small; lia.
Qed.

Lemma wrap_int_overflow : wrap_int (maxInt + 1) = minInt.
Proof. reflexivity. Qed.

Lemma wrap_int_add_l a b : wrap_int (wrap_int a + b) = wrap_int (a + b).
Proof.
  unfold wrap_int, intSize. f_equal.
  replace ((a + 2 ^ (64 - 1)) `mod` 2 ^ 64 - 2 ^ (64 - 1) + b + 2 ^ (64 - 1))
    with ((a + 2 ^ (64 - 1)) `mod` 2 ^ 64 + b) by lia.
  rewrite Z.add_mod_idemp_l by lia. f_equal. lia.
Qed.

Lemma StronglySorted_seqZ m n : StronglySorted Z.lt (seqZ m n).
Proof.
  destruct (decide (n ≤ 0)) as [Hn|Hn]; [rewrite seqZ_nil by done; constructor|].
  rewrite <- (Z2Nat.id n) by lia. generalize (Z.to_nat n) as k. clear n Hn.
  intros k. revert m. induction k as [|k IH]; intros m.
  - rewrite seqZ_nil by done. constructor.
  - rewrite seqZ_cons by lia. constructor.
    + replace (Z.pred (Z.of_nat (S k))) with (Z.of_nat k) by lia. apply IH.
    + apply Forall_seqZ. lia.
Qed.

(** As long as the counter does not pass [maxInt], a run hands out the
    consecutive values of the counter, and the ids stored afterwards
    are ids that were stored before or were handed out by the run. *)
Lemma serve_counter rs st w resps st' w' :
  serve rs st w = (resps, st', w') →
  minInt ≤ nextID st ≤ maxInt →
  nextID st + Z.of_nat (length (issued_ids rs resps)) ≤ maxInt + 1 →
  issued_ids rs resps = seqZ (nextID st) (Z.of_nat (length (issued_ids rs resps)))
  ∧ nextID st' = wrap_int (nextID st + Z.of_nat (length (issued_ids rs resps)))
  ∧ ∀ k, is_Some (todos st' !! k) →
      is_Some (todos st !! k)
      ∨ nextID st ≤ k < nextID st + Z.of_nat (length (issued_ids rs resps)).
Proof.
  revert st w resps. induction rs as [|r rs IH]; intros st w resps; simpl.
  { intros [= <- <- <-] Hrange _. simpl. rewrite Z.add_0_r, wrap_int_id by done.
    split; [by rewrite seqZ_nil|]. split; [done|]. intros k Hk. by left. }
  destruct (requestHandler r st w) as [[resp st1] w1] eqn:Hstep.
  destruct (serve rs st1 w1) as [[resps1 st2] w2] eqn:Hrest.
  intros [= <- <- <-]. simpl. intros Hrange Hbound.
  specialize (IH _ _ _ Hrest).
  destruct (requestHandler_step _ _ _ _ _ _ Hstep)
    as [(-> & Hiss)|[(b & t & _ & Hiss & _ & ->)|[(i & b & t & t' & _ & Hiss & Hi & _ & ->)
       |(i & _ & Hiss & Hi & ->)]]]; rewrite Hiss in *; simpl in *.
  - by apply IH.
  - set (n := length (issued_ids rs resps1)) in *.
    pose proof (wrap_int_range (nextID st + 1)) as Hwrap.
    assert (n = 0%nat ∨ wrap_int (nextID st + 1) = nextID st + 1) as Hcase.
    { destruct (decide (nextID st = maxInt)); [left; lia|].
      right. apply wrap_int_id. lia. }
    destruct IH as (Hids & Hnext & Hkeys); [apply wrap_int_range | |].
    { destruct Hcase as [Hn|Heq]; [|lia]. unfold minInt, maxInt, intSize in *. lia. }
    split; [|split].
    + rewrite (seqZ_cons (nextID st)) by lia. f_equal.
      replace (Z.pred (Z.of_nat (S n))) with (Z.of_nat n) by lia.
      destruct Hcase as [Hn|Heq].
      * rewrite Hn in *. rewrite seqZ_nil by done.
        by apply nil_length_inv.
      * rewrite Hids at 1. by rewrite Heq.
    + rewrite Hnext, wrap_int_add_l. f_equal. lia.
    + intros k Hk. destruct (Hkeys k Hk) as [Hold|Hnew].
      * rewrite lookup_insert in Hold. case_decide; [right; lia | by left].
      * right. destruct Hcase as [Hn|Heq]; [lia|]. lia.
  - destruct IH as (Hids & Hnext & Hkeys); [done..|].
    repeat split; [done..|]. intros k Hk.
    destruct (Hkeys k Hk) as [Hold|Hnew]; [|by right]. left.
    rewrite lookup_insert in Hold. case_decide; [by subst|done].
  - destruct IH as (Hids & Hnext & Hkeys); [done..|].
    repeat split; [done..|]. intros k Hk.
    destruct (Hkeys k Hk) as [Hold|Hnew]; [|by right]. left.
    rewrite lookup_delete in Hold. case_decide; [by destruct Hold | done].
Qed.

(** C2, as the code has it. In every run from the initial state, with
    Creates, Deletes and any other requests in any order, the ids
    handed out by the Creates are 1, 2, 3, ... in the order of
    issuance, hence strictly increasing, pairwise distinct and never
    handed out twice whatever was deleted in between, provided no more
    than [maxInt] = 2^63 - 1 ids are handed out, the point where the
    [int] counter wraps around. *)
Theorem issued_ids_increasing rs w resps st' w' :
  serve rs initial w = (resps, st', w') →
  Z.of_nat (length (issued_ids rs resps)) ≤ maxInt →
  issued_ids rs resps = seqZ 1 (Z.of_nat (length (issued_ids rs resps)))
  ∧ StronglySorted Z.lt (issued_ids rs resps)
  ∧ NoDup (issued_ids rs resps).
Proof.
  intros Hrun Hbound.
  destruct (serve_counter _ _ _ _ _ _ Hrun) as (Hids & _); simpl.
  { unfold minInt, maxInt, intSize. lia. }
  { lia. }
  simpl in Hids. split; [done|]. rewrite Hids.
  split; [apply StronglySorted_seqZ | apply NoDup_seqZ].
Qed.

(** *** Frame *)

(** A request leaves every record other than the one it is aimed at
    exactly as it was; a Create is aimed at the id it assigns, the
    current value of the counter. *)
Lemma requestHandler_frame r st w resp st' w' j :
  requestHandler r st w = (resp, st', w') →
  target r st ≠ Some j →
  todos st' !! j = todos st !! j.
Proof.
  intros Hrun Htarget.
  destruct (requestHandler_step _ _ _ _ _ _ Hrun)
    as [(-> & _)|[(b & t & -> & _ & _ & ->)|[(i & b & t & t' & -> & _ & _ & _ & ->)
       |(i & -> & _ & _ & ->)]]]; simpl in *; [done|..].
  - apply lookup_insert_ne. congruence.
  - apply lookup_insert_ne. congruence.
  - apply lookup_delete_ne. congruence.
Qed.

(** *** Delete *)

(** A Delete of a stored id answers 204 and removes the record stored
    under that id and no other: right after it the id is gone, and it
    stays gone over the requests that follow for as long as no Create
    hands it out anew. A Delete of an id that is not stored answers
    404 and leaves the store as it was. *)
Lemma deleteTodo_gone id st :
  keyed st →
  (∀ todo, todos st !! id = Some todo →
     ∃ st', deleteTodo id st = ({| StatusCode := StatusNoContent; Body := NoBody |}, st')
       ∧ (∀ j, j ≠ id → todos st' !! j = todos st !! j)
       ∧ nextID st' = nextID st
       ∧ gone id st'
       ∧ ∀ rs w resps st'' w'',
           serve rs st' w = (resps, st'', w'') →
           id ∉ issued_ids rs resps →
           gone id st'')
  ∧ (todos st !! id = None →
     deleteTodo id st = (ctx_Error "Todo not found" StatusNotFound, st)).
Proof.
  assert (∀ st0, keyed st0 → todos st0 !! id = None → gone id st0) as Hgone.
  { intros st0 Hkeyed0 Habsent. split; [unfold getTodo; by rewrite Habsent|].
    intros listed l [= <-] Hperm t Ht Heq. rewrite Hperm in Ht.
    apply list_elem_of_fmap in Ht as ([k t'] & -> & Hin).
    apply elem_of_map_to_list in Hin. simpl in Heq.
    rewrite (Hkeyed0 _ _ Hin) in Heq. congruence. }
  intros Hkeyed. split.
  - intros todo Hid. eexists. unfold deleteTodo. rewrite Hid.
    split; [reflexivity|]. simpl.
    assert (keyed {| todos := delete id (todos st); nextID := nextID st |}) as Hkeyed'.
    { intros k t. simpl. rewrite lookup_delete. case_decide; [done | apply Hkeyed]. }
    split; [intros j Hj; by apply lookup_delete_ne|]. split; [done|].
    split; [apply Hgone; [exact Hkeyed' | apply lookup_delete_eq]|].
    intros rs w resps st'' w'' Hrun Hnot. apply Hgone.
    + eapply serve_keyed; [exact Hrun | exact Hkeyed'].
    + eapply serve_stays_absent; [exact Hrun | apply lookup_delete_eq | done].
  - intros Hid. unfold deleteTodo. by rewrite Hid.
Qed.

(** *** The references FileSink returns *)

Lemma append_cons d (a b : string) : String d a +:+ b = String d (a +:+ b).
Proof. reflexivity. Qed.

Lemma append_assoc (a b c : string) : a +:+ (b +:+ c) = (a +:+ b) +:+ c.
Proof.
  induction a as [|d a IH]; [done|]. by rewrite !append_cons, IH.
Qed.

Lemma occurs_app c a b : occurs c (a +:+ b) = occurs c a || occurs c b.
Proof. induction a as [|d a IH]; simpl; [done|]. by rewrite IH, orb_assoc. Qed.

Lemma pretty_N_char_decimal d c :
  occurs c "0123456789" = false → pretty_N_char d ≠ c.
Proof.
  intros Hc <-. unfold pretty_N_char in Hc.
  by repeat (discriminate || case_match).
Qed.

Lemma pretty_N_go_occurs c x s :
  occurs c "0123456789" = false → occurs c (pretty_N_go x s) = occurs c s.
Proof.
  intros Hc. revert s. induction (N.lt_wf_0 x) as [x _ IH]; intros s.
  destruct (decide (x = 0)%N) as [->|Hx]; [by rewrite pretty_N_go_0|].
  rewrite pretty_N_go_step by lia. rewrite IH by (apply N.div_lt; lia). simpl.
  apply orb_false_iff in Hc as Hc'. 
  destruct (Ascii.eqb_spec (pretty_N_char (x `mod` 10)) c) as [Heq|_]; [|done].
  by destruct (pretty_N_char_decimal (x `mod` 10)%N c Hc).
Qed.

(** [%d] writes a sign and decimal digits only. *)
Lemma pretty_Z_occurs c (z : Z) :
  occurs c "-0123456789" = false → occurs c (pretty z) = false.
Proof.
  intros Hc. simpl in Hc. apply orb_false_iff in Hc as [Hdash Hdigits].
  assert (∀ x : positive, occurs c (pretty x) = false) as Hpos.
  { intros x. unfold pretty, pretty_positive, pretty, pretty_N.
    rewrite decide_False by done. by rewrite pretty_N_go_occurs. }
  destruct z as [|x|x]; unfold pretty, pretty_Z.
  - simpl. simpl in Hdigits. by apply orb_false_iff in Hdigits as [-> _].
  - apply Hpos.
  - rewrite occurs_app. simpl. by rewrite Hdash, Hpos.
Qed.

Lemma path_elements_no_slash s :
  occurs "/" s = false → path_elements s = [s].
Proof.
  induction s as [|d s IH]; simpl; [done|]. intros [Hd Hs]%orb_false_iff.
  by rewrite Hd, IH.
Qed.

Lemma path_elements_app a b :
  occurs "/" a = false →
  path_elements (a +:+ String "/" b) = a :: path_elements b.
Proof.
  induction a as [|d a IH]; simpl; [done|]. intros [Hd Ha]%orb_false_iff.
  by rewrite Hd, IH.
Qed.

(** A name that starts with a stamp and an underscore is a real path
    element: it is neither empty nor [.] nor [..]. *)
Lemma stamped_name_real stamp name :
  let filename := stamp +:+ "_" +:+ name in
  filename ≠ EmptyString ∧ filename ≠ "." ∧ filename ≠ "..".
Proof.
  destruct stamp as [|c1 [|c2 [|c3 stamp]]]; simpl; repeat split; try done;
    destruct name as [|? [|? ?]]; simpl; done.
Qed.

(** With a filename free of slashes, as [mime/multipart] hands them
    out (it keeps the last path element only), the reference is the
    [uploads] directory, the stamp, an underscore and the filename. *)
Lemma savedPath_form n fileHeader :
  occurs "/" (Filename fileHeader) = false →
  savedPath n fileHeader
  = "uploads/" +:+ pretty (UnixNano (os n)) +:+ "_" +:+ Filename fileHeader.
Proof.
  intros Hname. unfold savedPath.
  set (filename := pretty (UnixNano (os n)) +:+ "_" +:+ Filename fileHeader).
  assert (occurs "/" filename = false) as Hfile.
  { unfold filename. rewrite !occurs_app, pretty_Z_occurs, Hname; done. }
  destruct (stamped_name_real (pretty (UnixNano (os n))) (Filename fileHeader))
    as (Hne & Hdot & Hdots). fold filename in Hne, Hdot, Hdots.
  unfold filepath_Join. rewrite decide_False by done.
  change (join_slash ["uploads"; filename]) with ("uploads" +:+ String "/" filename).
  unfold filepath_Clean.
  change ("uploads" +:+ String "/" filename)
    with (String "u" ("ploads" +:+ String "/" filename)).
  cbv iota. change (Ascii.eqb "u" "/") with false. cbv zeta iota.
  change (String "u" ("ploads" +:+ String "/" filename))
    with ("uploads" +:+ String "/" filename).
  rewrite path_elements_app by done. rewrite path_elements_no_slash by done.
  unfold clean_loop. rewrite decide_False by done. rewrite decide_False by done.
  rewrite decide_False by done.
  by rewrite !decide_False by done.
Qed.

Lemma after_first_app c a b :
  occurs c a = false → after_first c (a +:+ String c b) = b.
Proof.
  induction a as [|d a IH]; simpl.
  - by rewrite Ascii.eqb_refl.
  - intros [-> Ha]%orb_false_iff. by apply IH.
Qed.

(** The original filename can be read back from the reference. *)
Lemma originalFilename_savedPath n fileHeader :
  occurs "/" (Filename fileHeader) = false →
  originalFilename (savedPath n fileHeader) = Filename fileHeader.
Proof.
  intros Hname. rewrite savedPath_form by done. unfold originalFilename.
  change ("uploads/" +:+ pretty (UnixNano (os n)) +:+ "_" +:+ Filename fileHeader)
    with ("uploads/" +:+ (pretty (UnixNano (os n)) +:+ String "_" (Filename fileHeader))).
  rewrite append_assoc. apply after_first_app.
  rewrite occurs_app, pretty_Z_occurs; done.
Qed.

Lemma split_at_first c a a' b b' :
  occurs c a = false → occurs c a' = false →
  a +:+ String c b = a' +:+ String c b' → a = a' ∧ b = b'.
Proof.
  revert a'. induction a as [|d a IH]; intros [|d' a']; simpl.
  - by intros _ _ [= ->].
  - intros _ [Hd _]%orb_false_iff [= <- _]. by rewrite Ascii.eqb_refl in Hd.
  - intros [Hd _]%orb_false_iff _ [= -> _]. by rewrite Ascii.eqb_refl in Hd.
  - intros [_ Ha]%orb_false_iff [_ Ha']%orb_false_iff [= -> Heq].
    destruct (IH _ Ha Ha' Heq) as [-> ->]. done.
Qed.

(** Two references are equal only if the two clock readings are equal
    (and the filenames are). *)
Lemma savedPath_inj n m f g :
  occurs "/" (Filename f) = false → occurs "/" (Filename g) = false →
  savedPath n f = savedPath m g →
  UnixNano (os n) = UnixNano (os m) ∧ Filename f = Filename g.
Proof.
  intros Hf Hg. rewrite !savedPath_form by done. intros Heq.
  apply (inj (String.app "uploads/")) in Heq.
  apply split_at_first in Heq as [Hstamp Hname];
    [|by apply pretty_Z_occurs..].
  split; [by apply (inj pretty) | done].
Qed.

(** *** Runs *)

Lemma triple_eta {A B C} (x : A * B * C) : x = (x.1.1, x.1.2, x.2).
Proof. by destruct x as [[??]?]. Qed.

Lemma serve_length rs st w resps st' w' :
  serve rs st w = (resps, st', w') → length resps = length rs.
Proof.
  revert st w resps. induction rs as [|r rs IH]; intros st w resps; simpl.
  { by intros [= <- _ _]. }
  destruct (requestHandler r st w) as [[resp st1] w1].
  destruct (serve rs st1 w1) as [[resps1 st2] w2] eqn:Hrest.
  intros [= <- <- <-]. simpl. f_equal. by eapply IH.
Qed.

Lemma serve_cons r rs st w resp st1 w1 resps st2 w2 :
  requestHandler r st w = (resp, st1, w1) →
  serve rs st1 w1 = (resps, st2, w2) →
  serve (r :: rs) st w = (resp :: resps, st2, w2).
Proof. simpl. by intros -> ->. Qed.

Lemma serve_app rs1 rs2 st w resps1 st1 w1 resps2 st2 w2 :
  serve rs1 st w = (resps1, st1, w1) →
  serve rs2 st1 w1 = (resps2, st2, w2) →
  serve (rs1 ++ rs2) st w = (resps1 ++ resps2, st2, w2).
Proof.
  revert st w resps1. induction rs1 as [|r rs1 IH]; intros st w resps1; simpl.
  { by intros [= <- <- <-]. }
  destruct (requestHandler r st w) as [[resp st0] w0].
  destruct (serve rs1 st0 w0) as [[resps0 st3] w3] eqn:Hrest.
  intros [= <- <- <-] Hsecond. by rewrite (IH _ _ _ Hrest Hsecond).
Qed.

Lemma issued_ids_app rs1 rs2 resps1 resps2 :
  length resps1 = length rs1 →
  issued_ids (rs1 ++ rs2) (resps1 ++ resps2)
  = issued_ids rs1 resps1 ++ issued_ids rs2 resps2.
Proof.
  revert resps1. induction rs1 as [|r rs1 IH]; intros [|resp resps1]; simpl; try done.
  intros [= Hlen]. rewrite (IH _ Hlen). by destruct (issued_id r resp).
Qed.

(** A Create with the blank form always succeeds. *)
Lemma createTodo_blank st w :
  ∃ t, createTodo (inr blank) st w
       = ({| StatusCode := StatusCreated; Body := JSONTodo t |},
          {| todos := <[nextID st := t]> (todos st);
             nextID := wrap_int (nextID st + 1) |}, w)
       ∧ Todo_ID t = nextID st.
Proof. by eexists. Qed.

Lemma serve_blank_creates n st w :
  ∃ resps st',
    serve (replicate n (POST_todos (inr blank))) st w = (resps, st', w)
    ∧ length (issued_ids (replicate n (POST_todos (inr blank))) resps) = n.
Proof.
  revert st. induction n as [|n IH]; intros st.
  { by eexists [], st. }
  destruct (createTodo_blank st w) as (t & Hfirst & Ht).
  destruct (IH {| todos := <[nextID st := t]> (todos st);
                  nextID := wrap_int (nextID st + 1) |}) as (resps & st' & Hrest & Hlen).
  eexists _, st'. split.
  - rewrite replicate_S. exact (serve_cons (POST_todos (inr blank)) _ _ _ _ _ _ _ _ _ Hfirst Hrest).
  - rewrite replicate_S. simpl. by rewrite Hlen.
Qed.

(** Once [maxInt] ids are out, the next Create hands out [minInt]. *)
Lemma serve_overflow n w :
  Z.of_nat n = maxInt →
  ∃ resps st',
    serve (replicate (S n) (POST_todos (inr blank))) initial w = (resps, st', w)
    ∧ issued_ids (replicate (S n) (POST_todos (inr blank))) resps
      = seqZ 1 maxInt ++ [minInt].
Proof.
  intros Hn. rewrite replicate_S_end.
  destruct (serve_blank_creates n initial w) as (resps & st1 & Hrun & Hlen).
  destruct (serve_counter _ _ _ _ _ _ Hrun) as (Hids & Hnext & _).
  { change (nextID initial) with 1. unfold minInt, maxInt, intSize. lia. }
  { change (nextID initial) with 1. rewrite Hlen. lia. }
  change (nextID initial) with 1 in Hids, Hnext. rewrite Hlen, Hn in Hids, Hnext.
  replace (1 + maxInt) with (maxInt + 1) in Hnext by lia.
  rewrite wrap_int_overflow in Hnext.
  (* the list of the first [maxInt] ids is never looked into *)
  revert Hids. generalize (seqZ 1 maxInt) as first_ids. intros first_ids Hids.
  destruct (createTodo_blank st1 w) as (t & Hlast & Ht).
  assert (issued_ids [POST_todos (inr blank)]
            [{| StatusCode := StatusCreated; Body := JSONTodo t |}] = [minInt])
    as Hlast_id.
  { simpl. rewrite Ht, Hnext. reflexivity. }
  eexists _, _. split.
  - eapply serve_app; [exact Hrun|].
    exact (serve_cons (POST_todos (inr blank)) [] _ _ _ _ _ _ _ _ Hlast eq_refl).
  - rewrite issued_ids_app by (eapply serve_length; exact Hrun).
    rewrite Hids, Hlast_id. reflexivity.
Qed.

End Properties.

(** * The service at work *)

(** The end-to-end example of the specification: the todo gets id 1
    and is completed, Get returns it, Delete answers 204 and a second
    Get answers 404. *)
Example end_to_end :
  (serve decode os_steady
     [POST_todos (inr milk); GET_todo 1; DELETE_todo 1; GET_todo 1] initial boot).1.1
  = [ {| StatusCode := 201; Body := JSONTodo milk_todo |};
      {| StatusCode := 200; Body := JSONTodo milk_todo |};
      {| StatusCode := 204; Body := NoBody |};
      {| StatusCode := 404; Body := Text "Todo not found" |} ].
Proof. vm_compute. reflexivity. Qed.

Example milk_stored : todos milk_store !! 1 = Some milk_todo.
Proof. vm_compute. reflexivity. Qed.

(** The derivation rule at the end-to-end example. *)
Lemma completed_is_derived_at_work :
  StatusCode (createTodo decode os_steady (inr milk) initial boot).1.1 = StatusCreated
  ∧ ∃ mForm t,
      (inr milk : string + Form) = inr mForm
      ∧ parseSubtasks decode (firstValue (Value mForm) "subtasks" EmptyString)
        = Some (Todo_Subtasks t)
      ∧ Body (createTodo decode os_steady (inr milk) initial boot).1.1 = JSONTodo t
      ∧ todos milk_store !! 1 = Some t
      ∧ (Todo_Completed t = true ↔ all_done (Todo_Subtasks t)).
Proof.
  assert (StatusCode (createTodo decode os_steady (inr milk) initial boot).1.1
          = StatusCreated) as Hcode by (vm_compute; reflexivity).
  split; [exact Hcode|].
  exact (proj1 (proj2 (proj2 (completed_is_derived decode os_steady)))
           (inr milk) initial boot _ _ _ (triple_eta _) Hcode).
Defined.

(** Ids 1 and 2 in a run that deletes todo 1 before the second Create. *)
Lemma issued_ids_increasing_at_work :
  let rs := [POST_todos (inr milk); DELETE_todo 1; POST_todos (inr blank); GET_todos] in
  let ids := issued_ids rs (serve decode os_steady rs initial boot).1.1 in
  Z.of_nat (length ids) ≤ maxInt
  ∧ ids = [1; 2] ∧ StronglySorted Z.lt ids ∧ NoDup ids.
Proof.
  intros rs ids.
  assert (Z.of_nat (length ids) ≤ maxInt) as Hbound by (vm_compute; discriminate).
  destruct (issued_ids_increasing decode os_steady rs boot _ _ _ (triple_eta _) Hbound)
    as (_ & Hsorted & Hnodup).
  split; [exact Hbound|]. split; [vm_compute; reflexivity|]. by split.
Defined.

(** C2, the claim as stated fails: the Create that follows the one
    handing out [maxInt] hands out [minInt], so the ids of
    [overflow_run] are not increasing. *)
Lemma id_counter_wraps :
  issued_ids overflow_run (serve decode os_steady overflow_run initial boot).1.1
  = seqZ 1 maxInt ++ [minInt]
  ∧ ¬ StronglySorted Z.lt
        (issued_ids overflow_run (serve decode os_steady overflow_run initial boot).1.1).
Proof.
  assert (0 < maxInt) as Hpos by (unfold maxInt, intSize; lia).
  unfold overflow_run.
  replace (Z.to_nat (maxInt + 1)) with (S (Z.to_nat maxInt)) by lia.
  pose proof (Z2Nat.id maxInt (Z.lt_le_incl _ _ Hpos)) as Hn. revert Hn.
  generalize (Z.to_nat maxInt) as n. intros n Hn.
  destruct (serve_overflow decode os_steady n boot Hn) as (resps & st' & Hrun & Hids).
  rewrite Hrun. change (resps, st', boot).1.1 with resps. rewrite Hids.
  split; [reflexivity|]. intros Hsorted.
  assert (1 < minInt) as Hlt.
  { apply (StronglySorted_app_1_elem_of _ _ _ _ _ Hsorted).
    - apply elem_of_seqZ. clear Hsorted. lia.
    - apply list_elem_of_here. }
  clear - Hlt. unfold minInt, intSize in Hlt. lia.
Qed.

(** C3, the claim as stated fails: an Update that supplies the empty
    string as title stores the empty string. *)
Lemma empty_title_overwrites :
  Value retitle_empty !! "title" = Some [EmptyString]
  ∧ Todo_Title <$> todos milk_store !! 1 = Some "Buy milk"
  ∧ StatusCode
      (updateTodo decode os_steady 1 (inr retitle_empty) milk_store milk_world).1.1
    = StatusOK
  ∧ Todo_Title <$>
      todos (updateTodo decode os_steady 1 (inr retitle_empty) milk_store milk_world).1.2
        !! 1
    = Some EmptyString
  ∧ Todo_Title <$>
      todos (updateTodo decode os_steady 1 (inr retitle_empty) milk_store milk_world).1.2
        !! 1
    ≠ Todo_Title <$> todos milk_store !! 1.
Proof. vm_compute. repeat split. discriminate. Qed.

(** An Update without a title and with a description. *)
Lemma update_text_fields_at_work :
  todos milk_store !! 1 = Some milk_todo
  ∧ StatusCode
      (updateTodo decode os_steady 1 (inr describe_with_photos) milk_store milk_world).1.1
    = StatusOK
  ∧ ∃ todo',
      todos (updateTodo decode os_steady 1 (inr describe_with_photos)
               milk_store milk_world).1.2 !! 1 = Some todo'
      ∧ Todo_Title todo' = "Buy milk" ∧ Todo_Description todo' = "semi-skimmed".
Proof.
  assert (todos milk_store !! 1 = Some milk_todo) as Hid by (vm_compute; reflexivity).
  assert (StatusCode
            (updateTodo decode os_steady 1 (inr describe_with_photos)
               milk_store milk_world).1.1 = StatusOK) as Hcode
    by (vm_compute; reflexivity).
  split; [exact Hid|]. split; [exact Hcode|].
  exact (update_text_fields decode os_steady 1 describe_with_photos
           milk_store milk_world milk_todo _ _ _ Hid (triple_eta _) Hcode).
Defined.

(** An Update with two files: their references, in order, are the
    images. *)
Lemma update_replaces_images_at_work :
  todos milk_store !! 1 = Some milk_todo
  ∧ StatusCode
      (updateTodo decode os_steady 1 (inr describe_with_photos) milk_store milk_world).1.1
    = StatusOK
  ∧ ∃ todo',
      todos (updateTodo decode os_steady 1 (inr describe_with_photos)
               milk_store milk_world).1.2 !! 1 = Some todo'
      ∧ Todo_Images todo'
        = ["uploads/1730600000000000000_a.png"; "uploads/1730600000000001000_b.png"].
Proof.
  assert (todos milk_store !! 1 = Some milk_todo) as Hid by (vm_compute; reflexivity).
  assert (StatusCode
            (updateTodo decode os_steady 1 (inr describe_with_photos)
               milk_store milk_world).1.1 = StatusOK) as Hcode
    by (vm_compute; reflexivity).
  split; [exact Hid|]. split; [exact Hcode|].
  destruct (update_replaces_images decode os_steady 1 describe_with_photos
              milk_store milk_world milk_todo _ _ _ Hid (triple_eta _) Hcode)
    as (todo' & Hstored & Himages).
  exists todo'. split; [exact Hstored|]. rewrite Himages. vm_compute. reflexivity.
Defined.

(** An Update without subtasks of a todo that was completed. *)
Lemma update_empty_subtasks_at_work :
  todos milk_store !! 1 = Some milk_todo ∧ Todo_Completed milk_todo = true
  ∧ firstValue (Value retitle_empty) "subtasks" EmptyString = EmptyString
  ∧ StatusCode
      (updateTodo decode os_steady 1 (inr retitle_empty) milk_store milk_world).1.1
    = StatusOK
  ∧ ∃ todo',
      todos (updateTodo decode os_steady 1 (inr retitle_empty)
               milk_store milk_world).1.2 !! 1 = Some todo'
      ∧ Todo_Subtasks todo' = [] ∧ Todo_Completed todo' = false.
Proof.
  assert (todos milk_store !! 1 = Some milk_todo) as Hid by (vm_compute; reflexivity).
  assert (firstValue (Value retitle_empty) "subtasks" EmptyString = EmptyString)
    as Hempty by (vm_compute; reflexivity).
  assert (StatusCode
            (updateTodo decode os_steady 1 (inr retitle_empty)
               milk_store milk_world).1.1 = StatusOK) as Hcode
    by (vm_compute; reflexivity).
  split; [exact Hid|]. split; [reflexivity|]. split; [exact Hempty|].
  split; [exact Hcode|].
  exact (update_empty_subtasks decode os_steady 1 retitle_empty
           milk_store milk_world milk_todo _ _ _ Hid Hempty (triple_eta _) Hcode).
Defined.

(** A garbled subtasks text sent to Create and to Update of todo 1. *)
Lemma malformed_subtasks_rejected_at_work :
  firstValue (Value garbled) "subtasks" EmptyString ≠ EmptyString
  ∧ decode (firstValue (Value garbled) "subtasks" EmptyString) = None
  ∧ createTodo decode os_steady (inr garbled) milk_store milk_world
    = (ctx_Error "Invalid subtasks format" StatusBadRequest, milk_store, milk_world)
  ∧ updateTodo decode os_steady 1 (inr garbled) milk_store milk_world
    = (ctx_Error "Invalid subtasks format" StatusBadRequest, milk_store, milk_world).
Proof.
  assert (firstValue (Value garbled) "subtasks" EmptyString ≠ EmptyString) as Hne
    by (vm_compute; discriminate).
  assert (decode (firstValue (Value garbled) "subtasks" EmptyString) = None) as Hbad
    by (vm_compute; reflexivity).
  split; [exact Hne|]. split; [exact Hbad|].
  destruct (malformed_subtasks_rejected decode os_steady garbled
              milk_store milk_world Hne Hbad) as [Hcreate Hupdate].
  split; [exact Hcreate|]. specialize (Hupdate 1). rewrite milk_stored in Hupdate.
  exact Hupdate.
Defined.

(** C6, the claim as stated fails: with the same garbled text, an
    Update of an id that is not stored answers 404, not 400. *)
Lemma malformed_update_of_unknown_id :
  firstValue (Value garbled) "subtasks" EmptyString ≠ EmptyString
  ∧ decode (firstValue (Value garbled) "subtasks" EmptyString) = None
  ∧ updateTodo decode os_steady 7 (inr garbled) initial boot
    = (ctx_Error "Todo not found" StatusNotFound, initial, boot)
  ∧ StatusCode (updateTodo decode os_steady 7 (inr garbled) initial boot).1.1
    ≠ StatusBadRequest.
Proof. vm_compute. repeat split; discriminate. Qed.

(** The disk fills up while the second of two files is saved. *)
Lemma upload_failure_aborts_at_work :
  File describe_with_photos !! "images"
  = Some [ {| Filename := "a.png"; Content := "first" |};
           {| Filename := "b.png"; Content := "second" |} ]
  ∧ save_error (os_disk_full (calls milk_world + 1)) = Some "no space left on device"
  ∧ save_error (os_disk_full (calls milk_world + 0)) = None
  ∧ ∃ w', createTodo decode os_disk_full (inr describe_with_photos) milk_store milk_world
          = (ctx_Error "no space left on device" StatusInternalServerError,
             milk_store, w').
Proof.
  assert (File describe_with_photos !! "images"
          = Some [ {| Filename := "a.png"; Content := "first" |};
                   {| Filename := "b.png"; Content := "second" |} ]) as Hfiles
    by (vm_compute; reflexivity).
  assert (save_error (os_disk_full (calls milk_world + 1))
          = Some "no space left on device") as Herr by (vm_compute; reflexivity).
  assert (save_error (os_disk_full (calls milk_world + 0)) = None) as Hfirst
    by (vm_compute; reflexivity).
  split; [exact Hfiles|]. split; [exact Herr|]. split; [exact Hfirst|].
  refine (proj1 (proj1 (upload_failure_aborts decode os_disk_full describe_with_photos
                          _ milk_store milk_world 1 _ Hfiles _ Herr _) [] _)).
  - simpl. lia.
  - intros [|j] Hj; [exact Hfirst | lia].
  - vm_compute. reflexivity.
Defined.

(** C9. The reference of an upload is [uploads/<clock reading>_<name>];
    the claim that two uploads of one request with the same name get
    distinct references fails where the two clock readings are equal:
    both files of [same_name_twice] get the same reference, the todo
    lists it twice, and the single file left on disk holds the bytes of
    the second upload. *)
Theorem same_name_same_stamp_collide :
  StatusCode (createTodo decode os_coarse (inr same_name_twice) initial boot).1.1
  = StatusCreated
  ∧ Todo_Images <$>
      todos (createTodo decode os_coarse (inr same_name_twice) initial boot).1.2 !! 1
    = Some [ "uploads/1730600000000000000_photo.png";
             "uploads/1730600000000000000_photo.png" ]
  ∧ map_to_list (disk (createTodo decode os_coarse (inr same_name_twice) initial boot).2)
    = [ ("uploads/1730600000000000000_photo.png", "second") ].
Proof. vm_compute. repeat split. Qed.

(** * More of [main.go] *)

(** ** Routing: prefixes and [strconv.Atoi] *)

Lemma strip_prefix_app p s : strip_prefix p (p +:+ s) = Some s.
Proof.
  induction p as [|c p IH]; [done|]. rewrite append_cons. simpl.
  by rewrite Ascii.eqb_refl.
Qed.

Lemma strip_prefix_Some p s rest : strip_prefix p s = Some rest → s = p +:+ rest.
Proof.
  revert s. induction p as [|c p IH]; intros [|d s]; simpl; try done.
  - by intros [= <-].
  - by intros [= <-].
  - destruct (Ascii.eqb_spec c d) as [->|]; [|done].
    intros Hrest. by rewrite (IH _ Hrest).
Qed.

Lemma digit_value_pretty_N_char d :
  (d < 10)%N → digit_value (pretty_N_char d) = Some (Z.of_N d).
Proof.
  intros Hd.
  assert (d = 0 ∨ d = 1 ∨ d = 2 ∨ d = 3 ∨ d = 4 ∨ d = 5 ∨ d = 6 ∨ d = 7
          ∨ d = 8 ∨ d = 9)%N as Hcases by lia.
  repeat (destruct Hcases as [->|Hcases]; [reflexivity|]). by subst.
Qed.

Lemma digit_value_range ch d : digit_value ch = Some d → 0 ≤ d ≤ 9.
Proof. unfold digit_value. case_decide; [|done]. intros [= <-]. lia. Qed.

(** Reading back what [%d] wrote in front of [s]. *)
Lemma parse_digits_pretty_N_go x s n :
  ∃ p, parse_digits (pretty_N_go x s) n = parse_digits s (n * p + Z.of_N x).
Proof.
  revert s n. induction (N.lt_wf_0 x) as [x _ IH]; intros s n.
  destruct (decide (x = 0)%N) as [->|Hx].
  { exists 1. rewrite pretty_N_go_0. f_equal. lia. }
  rewrite pretty_N_go_step by lia.
  destruct (IH (x `div` 10)%N ltac:(apply N.div_lt; lia)
               (String (pretty_N_char (x `mod` 10)) s) n) as [p ->].
  exists (10 * p). simpl.
  rewrite digit_value_pretty_N_char by (apply N.mod_lt; lia). f_equal.
  pose proof (N.div_mod x 10 ltac:(lia)) as Hdiv.
  rewrite N2Z.inj_mod, N2Z.inj_div. 
  pose proof (Z.div_mod (Z.of_N x) 10 ltac:(lia)). 
  change (Z.of_N 10) with 10. lia.
Qed.

(** [%d] of a positive number starts with a digit. *)
Lemma pretty_N_go_head x s :
  (0 < x)%N →
  ∃ c rest, pretty_N_go x s = String c rest ∧ occurs c "0123456789" = true.
Proof.
  revert s. induction (N.lt_wf_0 x) as [x _ IH]; intros s Hx.
  rewrite pretty_N_go_step by done.
  destruct (decide (x `div` 10 = 0)%N) as [->|Hdiv].
  - rewrite pretty_N_go_0. eexists _, _. split; [done|].
    unfold pretty_N_char. by repeat case_match.
  - apply IH; [apply N.div_lt; lia | by apply N.neq_0_lt_0].
Qed.

Lemma strconv_Atoi_pretty (z : Z) :
  minInt ≤ z ≤ maxInt → strconv_Atoi (pretty z) = Some z.
Proof.
  intros Hz.
  assert (∀ x : positive,
            ∃ c rest, pretty (Z.pos x) = String c rest
                      ∧ occurs c "0123456789" = true
                      ∧ parse_digits (String c rest) 0 = Some (Z.pos x)
                      ∧ pretty (Z.neg x) = String "-" (String c rest)) as Hpos.
  { intros x. unfold pretty, pretty_Z, pretty, pretty_positive, pretty, pretty_N.
    rewrite decide_False by done.
    destruct (pretty_N_go_head (N.pos x) EmptyString ltac:(lia)) as (c & rest & Heq & Hc).
    exists c, rest. rewrite Heq. split; [done|]. split; [done|]. split; [|done].
    rewrite <- Heq. destruct (parse_digits_pretty_N_go (N.pos x) EmptyString 0) as [p ->].
    simpl. f_equal. }
  destruct z as [|x|x].
  - reflexivity.
  - destruct (Hpos x) as (c & rest & -> & Hc & Hparse & _).
    unfold strconv_Atoi.
    assert (Ascii.eqb c "-" = false ∧ Ascii.eqb c "+" = false) as [-> ->].
    { split; destruct (Ascii.eqb_spec c "-"), (Ascii.eqb_spec c "+"); subst; done. }
    simpl orb. cbv iota. rewrite Hparse. cbv zeta iota. by rewrite decide_True.
  - destruct (Hpos x) as (c & rest & _ & Hc & Hparse & ->).
    unfold strconv_Atoi. change (Ascii.eqb "-" "-") with true. simpl orb. cbv iota.
    rewrite Hparse. cbv zeta iota. by rewrite decide_True.
Qed.

Lemma strconv_Atoi_range s n : strconv_Atoi s = Some n → minInt ≤ n ≤ maxInt.
Proof.
  unfold strconv_Atoi. destruct s as [|c rest]; [done|].
  destruct (if Ascii.eqb c "-" || Ascii.eqb c "+" then rest else String c rest); [done|].
  destruct (parse_digits _ 0); [|done]. case_decide; [|done]. by intros [= <-].
Qed.


Section Coverage.

Variable json_Unmarshal : string → option (list Subtask).
Variable os : nat → Syscalls.

Local Abbreviation saveUploadedFile := (saveUploadedFile os).
Local Abbreviation saveImages := (saveImages os).
Local Abbreviation processImages := (processImages os).
Local Abbreviation parseSubtasks := (parseSubtasks json_Unmarshal).
Local Abbreviation createTodo := (createTodo json_Unmarshal os).
Local Abbreviation updateTodo := (updateTodo json_Unmarshal os).
Local Abbreviation requestHandler := (requestHandler json_Unmarshal os).
Local Abbreviation serve := (serve json_Unmarshal os).
Local Abbreviation handleRequest := (handleRequest json_Unmarshal os).
Local Abbreviation savedPath := (savedPath os).
Local Abbreviation references := (references os).

(** ** Induction over runs *)

(** A property of the store and the world that holds at the start of a
    run and that every request preserves holds at its end. *)
Lemma serve_invariant (P : Store → World → Prop) :
  (∀ r st w resp st' w',
      requestHandler r st w = (resp, st', w') → P st w → P st' w') →
  ∀ rs st w resps st' w',
    serve rs st w = (resps, st', w') → P st w → P st' w'.
Proof.
  intros Hstep rs. induction rs as [|r rs IH]; intros st w resps st' w'; simpl.
  { by intros [= _ <- <-]. }
  destruct (requestHandler r st w) as [[resp st1] w1] eqn:Hfirst.
  destruct (serve rs st1 w1) as [[resps1 st2] w2] eqn:Hrest.
  intros [= _ <- <-] HP. eapply IH; [exact Hrest|]. by eapply Hstep.
Qed.

Lemma requestHandler_flags_derived r st w resp st' w' :
  requestHandler r st w = (resp, st', w') → flags_derived st → flags_derived st'.
Proof.
  intros Hrun Hflags. destruct r as [|body|id|id body|id]; simpl in Hrun.
  - by injection Hrun as _ <- _.
  - destruct (createTodo_cases _ _ _ _ _ _ _ _ Hrun)
      as [(_ & -> & _)|[(m & e & _ & _ & _ & ->)|(m & s & i & t & _ & _ & _ & -> & _ & ->)]];
      [done..|].
    intros k x. simpl. rewrite lookup_insert. case_decide; [|by apply Hflags].
    by intros [= <-].
  - by injection Hrun as _ <- _.
  - destruct (updateTodo_cases _ _ _ _ _ _ _ _ _ Hrun)
      as [(_ & _ & -> & _)|[(_ & _ & -> & _)|[(m & e & _ & _ & _ & _ & ->)
         |(t0 & m & s & i & t & _ & _ & _ & _ & -> & _ & ->)]]]; [done..|].
    intros k x. simpl. rewrite lookup_insert. case_decide; [|by apply Hflags].
    by intros [= <-].
  - destruct (deleteTodo id st) as [resp0 st0] eqn:Hdel. injection Hrun as _ <- _.
    destruct (deleteTodo_cases _ _ _ _ Hdel) as [(_ & _ & ->)|(_ & _ & ->)]; [done|].
    intros k x. simpl. rewrite lookup_delete. case_decide; [done | by apply Hflags].
Qed.

Lemma requestHandler_counter_range r st w resp st' w' :
  requestHandler r st w = (resp, st', w') →
  minInt ≤ nextID st ≤ maxInt → minInt ≤ nextID st' ≤ maxInt.
Proof.
  intros Hrun Hrange.
  destruct (requestHandler_step _ _ _ _ _ _ _ _ Hrun)
    as [(-> & _)|[(b & t & _ & _ & _ & ->)|[(id & b & t & t' & _ & _ & _ & _ & ->)
       |(id & _ & _ & _ & ->)]]]; simpl; try done.
  apply wrap_int_range.
Qed.

Lemma serve_flags_derived rs st w resps st' w' :
  serve rs st w = (resps, st', w') → flags_derived st → flags_derived st'.
Proof.
  apply (serve_invariant (λ st _, flags_derived st)).
  intros r st0 w0 resp st1 w1. apply requestHandler_flags_derived.
Qed.

Lemma serve_counter_range rs st w resps st' w' :
  serve rs st w = (resps, st', w') →
  minInt ≤ nextID st ≤ maxInt → minInt ≤ nextID st' ≤ maxInt.
Proof.
  apply (serve_invariant (λ st _, minInt ≤ nextID st ≤ maxInt)).
  intros r st0 w0 resp st1 w1. apply requestHandler_counter_range.
Qed.

Lemma initial_counter_range : minInt ≤ nextID initial ≤ maxInt.
Proof. unfold initial, minInt, maxInt, intSize; simpl. lia. Qed.

(** X1. In every store reached from the initial one, whatever the
    requests were, each record is stored under its own id, its
    completed flag is the one derived from its subtasks, and the
    counter is a value of type [int]. *)
Theorem reachable_store_invariants rs w resps st' w' :
  serve rs initial w = (resps, st', w') →
  keyed st' ∧ flags_derived st' ∧ minInt ≤ nextID st' ≤ maxInt.
Proof.
  intros Hrun. split; [|split].
  - eapply serve_keyed; [exact Hrun | apply initial_keyed].
  - eapply serve_flags_derived; [exact Hrun|].
    intros k t. unfold initial; simpl. by rewrite lookup_empty.
  - eapply serve_counter_range; [exact Hrun | apply initial_counter_range].
Qed.

(** ** Listing *)

(** X2. In a store whose records carry their keys, the list that
    [GET /todos] returns holds exactly the stored todos, each id once,
    as many as the map has entries. *)
Theorem listing_shows_store st listed :
  keyed st →
  Body (getTodos st) = JSONTodos listed →
  (∀ t, t ∈ listed ↔ todos st !! Todo_ID t = Some t)
  ∧ NoDup (Todo_ID <$> listed)
  ∧ length listed = size (todos st).
Proof.
  intros Hkeyed [= <-]. split; [|split].
  - intros t. rewrite list_elem_of_fmap. split.
    + intros ([k t'] & -> & Hin). apply elem_of_map_to_list in Hin. simpl.
      by rewrite (Hkeyed _ _ Hin).
    + intros Hin. exists (Todo_ID t, t). split; [done|]. by apply elem_of_map_to_list.
  - assert (Todo_ID <$> (map_to_list (todos st)).*2 = (map_to_list (todos st)).*1) as ->.
    { rewrite <- list_fmap_compose. apply list_fmap_ext.
      intros i [k t] Hi%list_elem_of_lookup_2%elem_of_map_to_list. simpl.
      by apply Hkeyed. }
    apply NoDup_fst_map_to_list.
  - by rewrite length_fmap, length_map_to_list.
Qed.

(** ** Paths and ids *)

Lemma todos_path_not_collection rest : "/todos/" +:+ rest ≠ "/todos".
Proof. done. Qed.

Lemma route_id method id body :
  minInt ≤ id ≤ maxInt →
  route method ("/todos/" +:+ pretty id) body
  = if decide (method = "GET") then inr (GET_todo id)
    else if decide (method = "PUT") then inr (PUT_todo id body)
    else if decide (method = "DELETE") then inr (DELETE_todo id)
    else inl (ctx_Error "Method not allowed" StatusMethodNotAllowed).
Proof.
  intros Hid. unfold route.
  rewrite decide_False by apply todos_path_not_collection.
  by rewrite strip_prefix_app, strconv_Atoi_pretty.
Qed.

(** X3. The decimal text of an id, as [%d] and [json.Marshal] write it,
    put after [/todos/] is routed to the handlers of exactly that id:
    Get, Update and Delete for the methods GET, PUT and DELETE; and
    whatever id the router passes on is a value of type [int]. *)
Theorem ids_round_trip_through_paths id body :
  minInt ≤ id ≤ maxInt →
  route "GET" ("/todos/" +:+ pretty id) body = inr (GET_todo id)
  ∧ route "PUT" ("/todos/" +:+ pretty id) body = inr (PUT_todo id body)
  ∧ route "DELETE" ("/todos/" +:+ pretty id) body = inr (DELETE_todo id)
  ∧ ∀ method path n,
      (route method path body = inr (GET_todo n)
       ∨ route method path body = inr (PUT_todo n body)
       ∨ route method path body = inr (DELETE_todo n)) →
      minInt ≤ n ≤ maxInt.
Proof.
  intros Hid. rewrite !route_id by done.
  split; [done|]. split; [done|]. split; [done|].
  intros method path n Hroute. unfold route in Hroute.
  destruct (decide (path = "/todos")).
  { repeat case_decide; destruct Hroute as [Hr|[Hr|Hr]]; discriminate. }
  destruct (strip_prefix "/todos/" path) as [idStr|];
    [|destruct Hroute as [Hr|[Hr|Hr]]; discriminate].
  destruct (strconv_Atoi idStr) as [n'|] eqn:Hatoi;
    [|destruct Hroute as [Hr|[Hr|Hr]]; discriminate].
  apply strconv_Atoi_range in Hatoi.
  repeat case_decide; destruct Hroute as [Hr|[Hr|Hr]]; by simplify_eq.
Qed.

(** X4. A todo that a run from the initial state has just created is
    served at [GET /todos/<id>], with the id written in decimal: the
    answer is 200 with the very record Create returned. *)
Theorem created_todo_is_served rs w0 resps st w body resp st' w' :
  serve rs initial w0 = (resps, st, w) →
  createTodo body st w = (resp, st', w') →
  StatusCode resp = StatusCreated →
  ∃ t, Body resp = JSONTodo t ∧ Todo_ID t = nextID st
    ∧ ∀ body' w'',
        handleRequest "GET" ("/todos/" +:+ pretty (Todo_ID t)) body' st' w''
        = ({| StatusCode := StatusOK; Body := JSONTodo t |}, st', w'').
Proof.
  intros Hreach Hrun Hcode.
  pose proof (serve_counter_range _ _ _ _ _ _ Hreach initial_counter_range) as Hrange.
  destruct (createTodo_cases _ _ _ _ _ _ _ _ Hrun)
    as [(Hbad & _)|[(m & e & _ & _ & -> & _)|(m & s & i & t & _ & _ & _ & Ht & -> & ->)]].
  - rewrite Hbad in Hcode. discriminate.
  - discriminate.
  - exists t. split; [done|]. split; [by subst t|].
    intros body' w''. unfold handleRequest.
    replace (Todo_ID t) with (nextID st) by (by subst t).
    rewrite route_id by done. simpl. unfold getTodo. simpl.
    by rewrite lookup_insert_eq.
Qed.

(** ** What a request can answer and change *)

Ltac status_in :=
  unfold StatusOK, StatusCreated, StatusNoContent, StatusBadRequest,
    StatusNotFound, StatusMethodNotAllowed, StatusInternalServerError;
  repeat first [apply list_elem_of_here | apply list_elem_of_further].

Ltac status_absurd H :=
  unfold StatusOK, StatusCreated, StatusNoContent, StatusBadRequest,
    StatusNotFound, StatusMethodNotAllowed, StatusInternalServerError in H;
  apply list_elem_of_In in H; simpl in H;
  repeat (destruct H as [H|H]; [discriminate H|]); destruct H.

Lemma requestHandler_outcomes r st w resp st' w' :
  requestHandler r st w = (resp, st', w') →
  StatusCode resp ∈ [200; 201; 204; 400; 404; 500]
  ∧ (StatusCode resp ∉ [200; 201; 204] → st' = st)
  ∧ (StatusCode resp ∈ [400; 404] → w' = w).
Proof.
  intros Hrun. destruct r as [|body|id|id body|id]; simpl in Hrun.
  - injection Hrun as <- <- <-. simpl. split; [status_in|]. by split.
  - destruct (createTodo_cases _ _ _ _ _ _ _ _ Hrun)
      as [(Hbad & -> & ->)|[(m & e & _ & _ & -> & ->)|(m & s & i & t & _ & _ & _ & _ & -> & _)]].
    + rewrite Hbad. split; [status_in|]. by split.
    + simpl. split; [status_in|]. split; [done|]. intros Hin. status_absurd Hin.
    + simpl. split; [status_in|]. split.
      * intros Hout. exfalso. apply Hout. status_in.
      * intros Hin. status_absurd Hin.
  - injection Hrun as <- <- <-. unfold getTodo. destruct (todos st !! id); simpl.
    + split; [status_in|]. by split.
    + split; [status_in|]. by split.
  - destruct (updateTodo_cases _ _ _ _ _ _ _ _ _ Hrun)
      as [(_ & -> & -> & ->)|[(_ & Hbad & -> & ->)|[(m & e & _ & _ & _ & -> & ->)
         |(t0 & m & s & i & t & _ & _ & _ & _ & _ & -> & _)]]].
    + simpl. split; [status_in|]. by split.
    + rewrite Hbad. split; [status_in|]. by split.
    + simpl. split; [status_in|]. split; [done|]. intros Hin. status_absurd Hin.
    + simpl. split; [status_in|]. split.
      * intros Hout. exfalso. apply Hout. status_in.
      * intros Hin. status_absurd Hin.
  - destruct (deleteTodo id st) as [resp0 st0] eqn:Hdel. injection Hrun as <- <- <-.
    destruct (deleteTodo_cases _ _ _ _ Hdel) as [(_ & -> & ->)|(_ & -> & ->)]; simpl.
    + split; [status_in|]. by split.
    + split; [status_in|]. split; [|done].
      intros Hout. exfalso. apply Hout. status_in.
Qed.

Lemma route_error method path body resp :
  route method path body = inl resp →
  resp = ctx_Error "Method not allowed" StatusMethodNotAllowed
  ∨ resp = ctx_Error "Invalid ID" StatusBadRequest
  ∨ resp = ctx_Error "Not found" StatusNotFound.
Proof.
  unfold route. destruct (decide (path = "/todos")).
  { destruct (decide (method = "GET")); [done|].
    destruct (decide (method = "POST")); [done|]. intros [= <-]. by left. }
  destruct (strip_prefix "/todos/" path) as [idStr|]; [|intros [= <-]; auto].
  destruct (strconv_Atoi idStr) as [id|]; [|intros [= <-]; auto].
  destruct (decide (method = "GET")); [done|].
  destruct (decide (method = "PUT")); [done|].
  destruct (decide (method = "DELETE")); [done|]. intros [= <-]. by left.
Qed.

Lemma route_GET path body r :
  route "GET" path body = inr r → r = GET_todos ∨ ∃ id, r = GET_todo id.
Proof.
  unfold route. destruct (decide (path = "/todos")).
  { rewrite decide_True by done. intros [= <-]. by left. }
  destruct (strip_prefix "/todos/" path) as [idStr|]; [|done].
  destruct (strconv_Atoi idStr) as [id|]; [|done].
  rewrite decide_True by done. intros [= <-]. right. by exists id.
Qed.

(** X5. Whatever the method, the path and the body, the answer carries
    one of seven status codes; unless it is 200, 201 or 204 the store
    is exactly as before; after a 400, 404 or 405 no file was written
    either; and a GET changes neither the store nor the files. *)
Theorem handleRequest_outcomes method path body st w resp st' w' :
  handleRequest method path body st w = (resp, st', w') →
  StatusCode resp ∈ [200; 201; 204; 400; 404; 405; 500]
  ∧ (StatusCode resp ∉ [200; 201; 204] → st' = st)
  ∧ (StatusCode resp ∈ [400; 404; 405] → w' = w)
  ∧ (method = "GET" → st' = st ∧ w' = w).
Proof.
  unfold handleRequest. destruct (route method path body) as [resp0|r] eqn:Hroute.
  - intros [= <- <- <-]. split; [|by repeat split].
    destruct (route_error _ _ _ _ Hroute) as [-> | [-> | ->]]; simpl; status_in.
  - intros Hrun.
    destruct (requestHandler_outcomes _ _ _ _ _ _ Hrun) as (Hcode & Hstore & Hworld).
    split; [|split; [done|split]].
    + apply list_elem_of_In in Hcode. apply list_elem_of_In. simpl in *. tauto.
    + intros Hin. apply Hworld.
      apply list_elem_of_In in Hcode, Hin. apply list_elem_of_In. simpl in *.
      destruct Hin as [Hin|[Hin|[Hin|[]]]]; [tauto | tauto |].
      rewrite <- Hin in Hcode.
      repeat (destruct Hcode as [Hcode|Hcode]; [discriminate Hcode|]). destruct Hcode.
    + intros ->. destruct (route_GET _ _ _ Hroute) as [-> | [id ->]];
        simpl in Hrun; by injection Hrun as <- <- <-.
Qed.

(** ** Update and Delete, once more *)

(** X6. An Update, whatever it answers, neither adds nor removes an
    id and leaves the counter alone; when it answers 200 in a store
    whose records carry their keys, the record it returns is the one
    now stored under the id of the path, with that id. *)
Theorem update_keeps_ids id body st w resp st' w' :
  updateTodo id body st w = (resp, st', w') →
  dom (todos st') = dom (todos st) ∧ nextID st' = nextID st
  ∧ (keyed st → StatusCode resp = StatusOK →
     ∃ t, Body resp = JSONTodo t ∧ todos st' !! id = Some t ∧ Todo_ID t = id).
Proof.
  intros Hrun.
  destruct (updateTodo_cases _ _ _ _ _ _ _ _ _ Hrun)
    as [(_ & -> & -> & _)|[(_ & Hbad & -> & _)|[(m & e & _ & _ & _ & -> & ->)
       |(t0 & m & s & i & t & Hid & _ & _ & _ & Ht & -> & ->)]]].
  - by repeat split.
  - repeat split. intros _ Hcode. rewrite Hbad in Hcode. discriminate.
  - by repeat split.
  - simpl. split; [apply dom_insert_lookup_L; by eexists|]. split; [done|].
    intros Hkeyed _. exists t. split; [done|]. split; [apply lookup_insert_eq|].
    subst t. simpl. by apply Hkeyed.
Qed.

Lemma firstValue_twice (m : gmap string (list string)) key dflt :
  firstValue m key (firstValue m key dflt) = firstValue m key dflt.
Proof. unfold firstValue. by destruct (m !! key) as [[|v vals]|]. Qed.

(** X7. An Update whose form carries no file is idempotent: sent a
    second time right after the first, it gives the same answer and
    leaves the same store and the same files. *)
Theorem update_without_files_idempotent id mForm st w resp st1 w1 :
  (∀ files, File mForm !! "images" = Some files → files = []) →
  updateTodo id (inr mForm) st w = (resp, st1, w1) →
  updateTodo id (inr mForm) st1 w1 = (resp, st1, w1).
Proof.
  intros Hnofile Hrun.
  assert (∀ w0, processImages mForm w0 = (inr [], w0)) as Himg.
  { intros w0. unfold processImages.
    destruct (File mForm !! "images") as [files|] eqn:Hfiles; [|done].
    by rewrite (Hnofile _ eq_refl). }
  destruct (updateTodo_cases _ _ _ _ _ _ _ _ _ Hrun)
    as [(_ & _ & -> & ->)|[(_ & _ & -> & ->)|[(m & e & _ & [= <-] & Hfail & _)
       |(t0 & m & s & i & t & Hid & [= <-] & Hparse & Hok & Ht & -> & ->)]]];
    [done | done | by rewrite Himg in Hfail |].
  rewrite Himg in Hok. injection Hok as <- <-.
  unfold updateTodo. simpl. rewrite lookup_insert_eq, Hparse, Himg.
  subst t. simpl. rewrite !firstValue_twice. by rewrite insert_insert_eq.
Qed.

(** X8. A second Delete of the same id, right after a first one that
    may or may not have found it, answers 404 and changes nothing. *)
Theorem delete_twice id st :
  deleteTodo id (deleteTodo id st).2
  = (ctx_Error "Todo not found" StatusNotFound, (deleteTodo id st).2).
Proof.
  unfold deleteTodo at 2 3. destruct (todos st !! id) eqn:Hid; simpl.
  - unfold deleteTodo. simpl. by rewrite lookup_delete_eq.
  - unfold deleteTodo. by rewrite Hid.
Qed.

(** ** Create *)

(** X9. A Create that answers 201 stores, under the value of the
    counter, the record it returns: the first title and description of
    the form (the empty string for a missing field), the references of
    the uploaded files in the order submitted (none without an
    [images] field), as many as there were files; and the counter
    moves on by one, wrapping around at [maxInt]. *)
Theorem create_stores_request mForm st w resp st' w' :
  createTodo (inr mForm) st w = (resp, st', w') →
  StatusCode resp = StatusCreated →
  ∃ t, Body resp = JSONTodo t ∧ todos st' !! nextID st = Some t
    ∧ Todo_ID t = nextID st
    ∧ Todo_Title t = firstValue (Value mForm) "title" EmptyString
    ∧ Todo_Description t = firstValue (Value mForm) "description" EmptyString
    ∧ Todo_Images t = match File mForm !! "images" with
                      | Some files => references (calls w) files
                      | None => []
                      end
    ∧ length (Todo_Images t) = length (default [] (File mForm !! "images"))
    ∧ nextID st' = wrap_int (nextID st + 1).
Proof.
  intros Hrun Hcode.
  destruct (createTodo_cases _ _ _ _ _ _ _ _ Hrun)
    as [(Hbad & _)|[(m & e & _ & _ & -> & _)
       |(m & s & i & t & [= <-] & _ & Himg & -> & -> & ->)]].
  - rewrite Hbad in Hcode. discriminate.
  - discriminate.
  - eexists. split; [reflexivity|]. split; [apply lookup_insert_eq|]. simpl.
    assert (i = match File mForm !! "images" with
                | Some files => references (calls w) files
                | None => []
                end) as ->.
    { unfold processImages in Himg. destruct (File mForm !! "images") as [files|].
      - by apply saveImages_inr in Himg as (-> & _).
      - by injection Himg as <- _. }
    repeat split. destruct (File mForm !! "images"); simpl; [|done].
    unfold references. by rewrite length_imap.
Qed.

(** ** Files *)

Lemma saveUploadedFile_disk fileHeader w r w' :
  saveUploadedFile fileHeader w = (r, w') → dom (disk w) ⊆ dom (disk w').
Proof.
  unfold saveUploadedFile.
  destruct (os (calls w)) as [[?|] ? [?|] [?|]]; simpl; intros [= <- <-]; simpl;
    rewrite ?dom_insert_L; set_solver.
Qed.

Lemma saveImages_disk files images w r w' :
  saveImages files images w = (r, w') → dom (disk w) ⊆ dom (disk w').
Proof.
  revert images w. induction files as [|fileHeader rest IH]; intros images w; simpl.
  { by intros [= _ <-]. }
  destruct (saveUploadedFile fileHeader w) as [[err|p] w1] eqn:Hsave.
  - intros [= _ <-]. by eapply saveUploadedFile_disk.
  - intros Hrest. etrans; [by eapply saveUploadedFile_disk | by eapply IH].
Qed.

(** What the loop leaves behind: the files saved before it stopped. *)
Lemma saveImages_saved files images w r w' :
  saveImages files images w = (r, w') →
  ∃ n, (n ≤ length files)%nat
    ∧ (∀ j fileHeader, (j < n)%nat → files !! j = Some fileHeader →
         save_error (os (calls w + j)) = None
         ∧ is_Some (disk w' !! savedPath (calls w + j) fileHeader))
    ∧ match r with
      | inr images' =>
          n = length files ∧ (calls w' = calls w + n)%nat
          ∧ images' = images ++ references (calls w) files
      | inl err =>
          (n < length files)%nat ∧ (calls w' = calls w + S n)%nat
          ∧ save_error (os (calls w + n)) = Some err
      end.
Proof.
  revert images w. induction files as [|fileHeader rest IH]; intros images w; simpl.
  { intros [= <- <-]. exists 0%nat. split; [done|]. split; [intros; lia|].
    by rewrite Nat.add_0_r, app_nil_r. }
  destruct (saveUploadedFile fileHeader w) as [[err|p] w1] eqn:Hsave.
  - intros [= <- <-]. exists 0%nat. split; [lia|]. split; [intros; lia|].
    split; [lia|]. split; [by rewrite (saveUploadedFile_calls _ _ _ _ _ Hsave); lia|].
    rewrite Nat.add_0_r. by eapply saveUploadedFile_inl.
  - intros Hrest. pose proof (saveImages_disk _ _ _ _ _ Hrest) as Hgrow.
    destruct (IH _ _ Hrest) as (n & Hn & Hsaved & Hend).
    apply saveUploadedFile_inr in Hsave as (Hfirst & -> & ->). simpl in *.
    exists (S n). split; [lia|]. split.
    + intros [|j] fh Hj Hfh; simpl in Hfh.
      * injection Hfh as <-. rewrite Nat.add_0_r. split; [done|].
        apply elem_of_dom, Hgrow, elem_of_dom. simpl.
        rewrite lookup_insert_eq. by eexists.
      * replace (calls w + S j)%nat with (S (calls w) + j)%nat by lia.
        apply Hsaved; [lia | done].
    + destruct r as [err|images'].
      * destruct Hend as (Hlt & Hcalls & Herr). split; [lia|]. split; [lia|].
        by replace (calls w + S n)%nat with (S (calls w) + n)%nat by lia.
      * destruct Hend as (-> & Hcalls & ->). split; [done|]. split; [lia|].
        by rewrite references_cons, <- app_assoc.
Qed.

Lemma processImages_disk mForm w r w' :
  processImages mForm w = (r, w') →
  dom (disk w) ⊆ dom (disk w') ∧ (calls w ≤ calls w')%nat
  ∧ ∀ images reference, r = inr images → reference ∈ images →
      is_Some (disk w' !! reference).
Proof.
  unfold processImages. destruct (File mForm !! "images") as [files|].
  - intros Hsave. split; [by eapply saveImages_disk|].
    destruct (saveImages_saved _ _ _ _ _ Hsave) as (n & Hn & Hsaved & Hend).
    split; [destruct r; lia|]. intros images reference -> Hin.
    destruct Hend as (-> & _ & ->). simpl in Hin. unfold references in Hin.
    apply elem_of_lookup_imap in Hin as (j & fh & -> & Hfh).
    apply Hsaved; [by eapply lookup_lt_Some | done].
  - intros [= <- <-]. split; [done|]. split; [done|].
    intros images reference [= <-] Hin. by apply elem_of_nil in Hin.
Qed.

Lemma requestHandler_world r st w resp st' w' :
  requestHandler r st w = (resp, st', w') →
  dom (disk w) ⊆ dom (disk w') ∧ (calls w ≤ calls w')%nat.
Proof.
  intros Hrun. destruct r as [|body|id|id body|id]; simpl in Hrun.
  - by injection Hrun as _ _ <-.
  - destruct (createTodo_cases _ _ _ _ _ _ _ _ Hrun)
      as [(_ & _ & ->)|[(m & e & _ & Himg & _)|(m & s & i & t & _ & _ & Himg & _)]];
      [done|..]; by destruct (processImages_disk _ _ _ _ Himg) as (? & ? & _).
  - by injection Hrun as _ _ <-.
  - destruct (updateTodo_cases _ _ _ _ _ _ _ _ _ Hrun)
      as [(_ & _ & _ & ->)|[(_ & _ & _ & ->)|[(m & e & _ & _ & Himg & _)
         |(t0 & m & s & i & t & _ & _ & _ & Himg & _)]]];
      [done|done|..]; by destruct (processImages_disk _ _ _ _ Himg) as (? & ? & _).
  - destruct (deleteTodo id st) as [resp0 st0]. by injection Hrun as _ _ <-.
Qed.

(** X10. The server never removes a file: over any run the files on
    disk at the start are still there at the end, whatever was
    deleted or replaced in between, and the number of files it tried
    to save never goes down. *)
Theorem files_are_never_removed rs st w resps st' w' :
  serve rs st w = (resps, st', w') →
  dom (disk w) ⊆ dom (disk w') ∧ (calls w ≤ calls w')%nat.
Proof.
  intros Hrun.
  apply (serve_invariant
           (λ _ w1, dom (disk w) ⊆ dom (disk w1) ∧ (calls w ≤ calls w1)%nat))
    with (rs := rs) (st := st) (w := w) (resps := resps) (st' := st');
    [|exact Hrun|by split].
  intros r st0 w0 resp st1 w1 Hstep [Hd Hc].
  destruct (requestHandler_world _ _ _ _ _ _ Hstep) as [Hd' Hc'].
  split; [by etrans | lia].
Qed.

Lemma requestHandler_images_on_disk r st w resp st' w' :
  requestHandler r st w = (resp, st', w') →
  images_on_disk st w → images_on_disk st' w'.
Proof.
  intros Hrun Hinv.
  assert (images_on_disk st w') as Hold.
  { intros k t reference Hk Hin.
    destruct (requestHandler_world _ _ _ _ _ _ Hrun) as [Hgrow _].
    apply elem_of_dom, Hgrow, elem_of_dom. by eapply Hinv. }
  destruct r as [|body|id|id body|id]; simpl in Hrun.
  - by injection Hrun as _ <- _.
  - destruct (createTodo_cases _ _ _ _ _ _ _ _ Hrun)
      as [(_ & -> & _)|[(m & e & _ & _ & _ & ->)|(m & s & i & t & _ & _ & Himg & -> & _ & ->)]];
      [done..|].
    destruct (processImages_disk _ _ _ _ Himg) as (_ & _ & Hnew).
    intros k x reference. simpl. rewrite lookup_insert. case_decide.
    + intros [= <-] Hin. simpl in Hin. by eapply Hnew.
    + apply Hold.
  - by injection Hrun as _ <- _.
  - destruct (updateTodo_cases _ _ _ _ _ _ _ _ _ Hrun)
      as [(_ & _ & -> & _)|[(_ & _ & -> & _)|[(m & e & _ & _ & _ & _ & ->)
         |(t0 & m & s & i & t & _ & _ & _ & Himg & -> & _ & ->)]]]; [done..|].
    destruct (processImages_disk _ _ _ _ Himg) as (_ & _ & Hnew).
    intros k x reference. simpl. rewrite lookup_insert. case_decide.
    + intros [= <-] Hin. simpl in Hin. by eapply Hnew.
    + apply Hold.
  - destruct (deleteTodo id st) as [resp0 st0] eqn:Hdel. injection Hrun as _ <- _.
    destruct (deleteTodo_cases _ _ _ _ Hdel) as [(_ & _ & ->)|(_ & _ & ->)]; [done|].
    intros k x reference. simpl. rewrite lookup_delete. case_decide; [done|apply Hold].
Qed.

(** X11. In every state reached from the initial store, whatever was
    on disk at the start, each image reference of each stored todo is
    the path of a file on disk. *)
Theorem stored_images_exist rs w resps st' w' :
  serve rs initial w = (resps, st', w') → images_on_disk st' w'.
Proof.
  intros Hrun. apply (serve_invariant images_on_disk requestHandler_images_on_disk
                        _ _ _ _ _ _ Hrun).
  intros k t reference. unfold initial; simpl. by rewrite lookup_empty.
Qed.

(** X12. A Create that answers 500 was stopped by the first file of
    the [images] field that could not be saved: the body is the error
    of that file, the files after it were not attempted, the store is
    as before, and the files before it are on disk all the same: they
    are not rolled back. *)
Theorem failed_batch_is_not_rolled_back mForm st w resp st' w' :
  createTodo (inr mForm) st w = (resp, st', w') →
  StatusCode resp = StatusInternalServerError →
  ∃ files n err,
    File mForm !! "images" = Some files ∧ (n < length files)%nat
    ∧ save_error (os (calls w + n)) = Some err
    ∧ resp = ctx_Error err StatusInternalServerError ∧ st' = st
    ∧ (calls w' = calls w + S n)%nat
    ∧ ∀ j fileHeader, (j < n)%nat → files !! j = Some fileHeader →
        save_error (os (calls w + j)) = None
        ∧ is_Some (disk w' !! savedPath (calls w + j) fileHeader).
Proof.
  intros Hrun Hcode.
  destruct (createTodo_cases _ _ _ _ _ _ _ _ Hrun)
    as [(Hbad & _)|[(m & e & [= <-] & Himg & -> & ->)|(m & s & i & t & _ & _ & _ & _ & -> & _)]].
  - rewrite Hbad in Hcode. discriminate.
  - unfold processImages in Himg.
    destruct (File mForm !! "images") as [files|]; [|done].
    destruct (saveImages_saved _ _ _ _ _ Himg) as (n & _ & Hsaved & Hlt & Hcalls & Herr).
    by exists files, n, e.
  - discriminate.
Qed.

Lemma references_NoDup n files :
  clock_advances os → plain_names files → NoDup (references n files).
Proof.
  intros Hclock Hplain. apply NoDup_alt. intros i j p Hi Hj.
  unfold references in Hi, Hj. rewrite list_lookup_imap in Hi, Hj.
  destruct (files !! i) as [f|] eqn:Hf; [|done].
  destruct (files !! j) as [g|] eqn:Hg; [|done].
  simpl in Hi, Hj. injection Hi as <-. injection Hj as Heq.
  unfold plain_names in Hplain. rewrite Forall_forall in Hplain.
  destruct (savedPath_inj os (n + j) (n + i) g f) as [Hstamp _]; [| |done|].
  { apply Hplain. by eapply list_elem_of_lookup_2. }
  { apply Hplain. by eapply list_elem_of_lookup_2. }
  destruct (decide (i = j)) as [|Hne]; [done|].
  destruct (Hclock (n + j)%nat (n + i)%nat); [lia | done].
Qed.

(** X13. Where the clock never gives the same reading twice and the
    filenames of the batch are free of slashes, the images of the
    record a Create or an Update returns are pairwise distinct. *)
Theorem distinct_readings_distinct_references mForm :
  clock_advances os →
  (∀ files, File mForm !! "images" = Some files → plain_names files) →
  (∀ st w resp st' w' t,
      createTodo (inr mForm) st w = (resp, st', w') →
      Body resp = JSONTodo t → NoDup (Todo_Images t))
  ∧ (∀ id st w resp st' w' t,
        updateTodo id (inr mForm) st w = (resp, st', w') →
        Body resp = JSONTodo t → NoDup (Todo_Images t)).
Proof.
  intros Hclock Hplain.
  assert (∀ w images w', processImages mForm w = (inr images, w') → NoDup images)
    as Himages.
  { intros w images w'. unfold processImages.
    destruct (File mForm !! "images") as [files|] eqn:Hfiles.
    - intros Hsave. apply saveImages_inr in Hsave as (-> & _). simpl.
      apply references_NoDup; [done | by apply Hplain].
    - intros [= <- _]. constructor. }
  split.
  - intros st w resp st' w' t Hrun Hbody.
    destruct (createTodo_cases _ _ _ _ _ _ _ _ Hrun)
      as [(Hbad & -> & ->)|[(m & e & _ & _ & -> & _)
         |(m & s & i & t' & [= <-] & _ & Himg & -> & -> & _)]].
    + unfold createTodo in Hrun. destruct (parseSubtasks _); [|by simplify_eq].
      destruct (processImages mForm w) as [[?|?] ?]; simplify_eq.
    + discriminate.
    + injection Hbody as <-. simpl. by eapply Himages.
  - intros id st w resp st' w' t Hrun Hbody.
    destruct (updateTodo_cases _ _ _ _ _ _ _ _ _ Hrun)
      as [(_ & -> & _)|[(Hsome & Hbad & -> & ->)|[(m & e & _ & _ & _ & -> & _)
         |(t0 & m & s & i & t' & _ & [= <-] & _ & Himg & -> & -> & _)]]].
    + discriminate.
    + unfold updateTodo in Hrun. destruct (todos st !! id); [|by simplify_eq].
      destruct (parseSubtasks _); [|by simplify_eq].
      destruct (processImages mForm w) as [[?|?] ?]; simplify_eq.
    + discriminate.
    + injection Hbody as <-. simpl. by eapply Himages.
Qed.

(** X14. A file saved under a name free of slashes, as
    [mime/multipart] hands names out, sits directly in [uploads]: its
    reference is [uploads/], the clock reading in decimal, an
    underscore and the name, with no other slash; the name can be read
    back from it; and the file holds the bytes uploaded. *)
Theorem saved_file_shape fileHeader w reference w' :
  occurs "/" (Filename fileHeader) = false →
  saveUploadedFile fileHeader w = (inr reference, w') →
  reference
  = "uploads/" +:+ pretty (UnixNano (os (calls w))) +:+ "_" +:+ Filename fileHeader
  ∧ (∃ name, strip_prefix "uploads/" reference = Some name ∧ occurs "/" name = false)
  ∧ originalFilename reference = Filename fileHeader
  ∧ disk w' !! reference = Some (Content fileHeader).
Proof.
  intros Hname Hsave. apply saveUploadedFile_inr in Hsave as (_ & -> & ->).
  split; [by apply savedPath_form|]. split; [|split].
  - rewrite savedPath_form by done. eexists. split; [apply strip_prefix_app|].
    rewrite !occurs_app, pretty_Z_occurs, Hname; done.
  - by apply originalFilename_savedPath.
  - simpl. apply lookup_insert_eq.
Qed.

(** ** Counting *)

Lemma size_delete_stored (m : gmap Z Todo) id :
  is_Some (m !! id) → size m = S (size (delete id m)).
Proof.
  intros [t Hid]. rewrite <- (insert_delete_id m id t) at 1 by done.
  apply map_size_insert_None, lookup_delete_eq.
Qed.

(** One request either hands out the value of the counter and stores a
    record under it, or removes a stored record, or leaves the number
    of records and the counter as they were. *)
Lemma requestHandler_count r st w resp st' w' :
  requestHandler r st w = (resp, st', w') →
  ∃ created deleted : bool,
    (∀ rs resps,
        issued_ids (r :: rs) (resp :: resps)
        = (if created then [nextID st] else []) ++ issued_ids rs resps)
    ∧ (∀ rs resps,
          deletions (r :: rs) (resp :: resps)
          = ((if deleted then 1 else 0) + deletions rs resps)%nat)
    ∧ match created, deleted with
      | true, true => False
      | true, false =>
          ∃ t, st' = {| todos := <[nextID st := t]> (todos st);
                        nextID := wrap_int (nextID st + 1) |}
      | false, true =>
          ∃ id, is_Some (todos st !! id)
                ∧ st' = {| todos := delete id (todos st); nextID := nextID st |}
      | false, false =>
          nextID st' = nextID st ∧ size (todos st') = size (todos st)
          ∧ ∀ k, is_Some (todos st' !! k) → is_Some (todos st !! k)
      end.
Proof.
  intros Hrun. destruct r as [|body|id|id body|id]; simpl in Hrun.
  - injection Hrun as <- <- <-. by exists false, false.
  - destruct (createTodo_cases _ _ _ _ _ _ _ _ Hrun)
      as [(Hbad & -> & _)|[(m & e & _ & _ & -> & ->)|(m & s & i & t & _ & _ & _ & Ht & -> & ->)]].
    + exists false, false. split; [|done]. intros rs resps. simpl. unfold issued_id.
      destruct (Body resp); try done. by rewrite decide_False by (by rewrite Hbad).
    + by exists false, false.
    + exists true, false. split; [|split; [done|by exists t]].
      intros rs resps. simpl. by subst t.
  - injection Hrun as <- <- <-. by exists false, false.
  - destruct (updateTodo_cases _ _ _ _ _ _ _ _ _ Hrun)
      as [(_ & -> & -> & _)|[(_ & _ & -> & _)|[(m & e & _ & _ & _ & -> & ->)
         |(t0 & m & s & i & t & Hid & _ & _ & _ & _ & -> & ->)]]];
      try by exists false, false.
    exists false, false. split; [done|]. split; [done|]. simpl. split; [done|].
    split; [apply map_size_insert_Some; by eexists|].
    intros k. rewrite lookup_insert. case_decide; [subst; by eexists | done].
  - destruct (deleteTodo id st) as [resp0 st0] eqn:Hdel. injection Hrun as <- <- <-.
    destruct (deleteTodo_cases _ _ _ _ Hdel) as [(_ & -> & ->)|(Hid & -> & ->)].
    + by exists false, false.
    + exists false, true. split; [done|]. split; [done|]. by exists id.
Qed.

(** The bookkeeping of a run: as long as the counter does not pass
    [maxInt] and starts above every stored id, each id handed out adds
    a record and each Delete answered 204 removes one. *)
Lemma serve_count rs st w resps st' w' :
  serve rs st w = (resps, st', w') →
  issued_ids rs resps = []
  ∨ (minInt ≤ nextID st ≤ maxInt
     ∧ nextID st + Z.of_nat (length (issued_ids rs resps)) ≤ maxInt + 1
     ∧ ∀ k, is_Some (todos st !! k) → k < nextID st) →
  (size (todos st') + deletions rs resps
   = size (todos st) + length (issued_ids rs resps))%nat.
Proof.
  revert st w resps. induction rs as [|r rs IH]; intros st w resps.
  { simpl. intros [= <- <- <-] _. simpl. lia. }
  simpl serve.
  destruct (requestHandler r st w) as [[resp st1] w1] eqn:Hfirst.
  destruct (serve rs st1 w1) as [[resps1 st2] w2] eqn:Hrest.
  intros [= <- <- <-]. specialize (IH _ _ _ Hrest).
  destruct (requestHandler_count _ _ _ _ _ _ Hfirst)
    as (created & deleted & -> & -> & Hcase).
  set (n := length (issued_ids rs resps1)) in *.
  destruct created, deleted; [done|..].
  - destruct Hcase as [t ->]. simpl in *.
    intros [Hnil|(Hrange & Hbound & Hkeys)]; [done|].
    assert (todos st !! nextID st = None) as Hfresh.
    { destruct (todos st !! nextID st) eqn:Hk; [|done].
      specialize (Hkeys (nextID st) ltac:(by eexists)). lia. }
    rewrite (map_size_insert_None _ _ _ Hfresh) in IH.
    enough (size (todos st2) + deletions rs resps1 = S (size (todos st)) + n)%nat by lia.
    apply IH. destruct (decide (n = 0%nat)) as [Hn|Hn].
    + left. by apply nil_length_inv.
    + right. rewrite wrap_int_id by lia. split; [lia|]. split; [lia|].
      intros k. rewrite lookup_insert. case_decide; [lia|].
      intros Hk. specialize (Hkeys k Hk). lia.
  - destruct Hcase as (id & Hid & ->). simpl in *. fold n.
    intros Hpre. rewrite (size_delete_stored _ _ Hid).
    enough (size (todos st2) + deletions rs resps1
            = size (delete id (todos st)) + n)%nat by lia.
    apply IH. destruct Hpre as [Hnil|(Hrange & Hbound & Hkeys)]; [by left|].
    right. split; [done|]. split; [done|].
    intros k. rewrite lookup_delete. case_decide; [by intros [? ?]|apply Hkeys].
  - destruct Hcase as (Hnext & Hsize & Hsub). simpl in *. fold n.
    intros Hpre. rewrite <- Hsize. apply IH.
    destruct Hpre as [Hnil|(Hrange & Hbound & Hkeys)]; [by left|].
    right. rewrite Hnext. split; [done|]. split; [done|].
    intros k Hk. by apply Hkeys, Hsub.
Qed.

(** X15. In a run from the initial state that hands out no more than
    [maxInt] ids, the number of todos stored at the end is the number
    of ids handed out minus the number of Deletes answered 204. *)
Theorem stored_todos_count rs w resps st' w' :
  serve rs initial w = (resps, st', w') →
  Z.of_nat (length (issued_ids rs resps)) ≤ maxInt →
  (size (todos st') + deletions rs resps = length (issued_ids rs resps))%nat.
Proof.
  intros Hrun Hbound.
  rewrite (serve_count _ _ _ _ _ _ Hrun).
  { change (todos initial) with (∅ : gmap Z Todo). by rewrite map_size_empty. }
  right. split; [apply initial_counter_range|]. split.
  - change (nextID initial) with 1. lia.
  - intros k. unfold initial; simpl. rewrite lookup_empty. by intros [? ?].
Qed.

(** ** The counter, with its wrap-around *)

Lemma serve_ids_wrap rs st w resps st' w' :
  serve rs st w = (resps, st', w') →
  minInt ≤ nextID st ≤ maxInt →
  issued_ids rs resps
  = (λ i, wrap_int (nextID st + Z.of_nat i)) <$> seq 0 (length (issued_ids rs resps))
  ∧ nextID st' = wrap_int (nextID st + Z.of_nat (length (issued_ids rs resps))).
Proof.
  revert st w resps. induction rs as [|r rs IH]; intros st w resps.
  { simpl. intros [= <- <- <-] Hrange. simpl. by rewrite Z.add_0_r, wrap_int_id. }
  simpl serve.
  destruct (requestHandler r st w) as [[resp st1] w1] eqn:Hfirst.
  destruct (serve rs st1 w1) as [[resps1 st2] w2] eqn:Hrest.
  intros [= <- <- <-] Hrange.
  pose proof (requestHandler_counter_range _ _ _ _ _ _ Hfirst Hrange) as Hrange1.
  destruct (IH _ _ _ Hrest Hrange1) as [Hids Hnext].
  destruct (requestHandler_count _ _ _ _ _ _ Hfirst)
    as (created & deleted & -> & _ & Hcase).
  set (n := length (issued_ids rs resps1)) in *.
  assert (created = false → nextID st1 = nextID st) as Hsame.
  { intros ->. destruct deleted.
    - by destruct Hcase as (id & _ & ->).
    - by destruct Hcase as (? & _). }
  destruct created.
  - assert (nextID st1 = wrap_int (nextID st + 1)) as Hstep.
    { destruct deleted; [done|]. by destruct Hcase as [t ->]. }
    simpl. fold n. split.
    + f_equal; [by rewrite Z.add_0_r, wrap_int_id|].
      rewrite Hids at 1. rewrite <- fmap_S_seq, <- list_fmap_compose.
      apply list_fmap_ext. intros i j _. simpl.
      rewrite Hstep, wrap_int_add_l. f_equal. lia.
    + rewrite Hnext, Hstep, wrap_int_add_l. f_equal. lia.
  - simpl. fold n. rewrite Hsame in Hids, Hnext by done. by split.
Qed.

(** X16. In every run from the initial state, however long, the k-th
    id handed out (counting from 0) is 1 + k reduced to the range of
    [int], and the counter at the end is 1 plus the number of ids
    handed out, reduced likewise. *)
Theorem ids_follow_counter rs w resps st' w' :
  serve rs initial w = (resps, st', w') →
  issued_ids rs resps
  = (λ k, wrap_int (1 + Z.of_nat k)) <$> seq 0 (length (issued_ids rs resps))
  ∧ nextID st' = wrap_int (1 + Z.of_nat (length (issued_ids rs resps))).
Proof.
  intros Hrun. exact (serve_ids_wrap _ _ _ _ _ _ Hrun initial_counter_range).
Qed.

(** ** Ids the router turns down *)

Lemma parse_digits_decimal s n m c :
  parse_digits s n = Some m → occurs c s = true → occurs c "0123456789" = true.
Proof.
  revert n. induction s as [|d s IH]; intros n; simpl; [done|].
  destruct (digit_value d) as [v|] eqn:Hd; [|done]. intros Hparse.
  destruct (Ascii.eqb_spec d c) as [<-|_]; simpl; [intros _|by apply (IH _ Hparse)].
  clear -Hd. unfold digit_value in Hd. case_decide as Hrange; [|done].
  assert (d = ascii_of_N (N_of_ascii d)) as -> by (by rewrite ascii_N_embedding).
  assert (N_of_ascii d = 48 ∨ N_of_ascii d = 49 ∨ N_of_ascii d = 50
          ∨ N_of_ascii d = 51 ∨ N_of_ascii d = 52 ∨ N_of_ascii d = 53
          ∨ N_of_ascii d = 54 ∨ N_of_ascii d = 55 ∨ N_of_ascii d = 56
          ∨ N_of_ascii d = 57)%N as Hcases by lia.
  repeat (destruct Hcases as [->|Hcases]; [reflexivity|]). by rewrite Hcases.
Qed.

Lemma strconv_Atoi_bytes s n c :
  strconv_Atoi s = Some n → occurs c s = true → occurs c "+-0123456789" = true.
Proof.
  unfold strconv_Atoi. destruct s as [|d rest]; [done|].
  assert (∀ t m, parse_digits t 0 = Some m → occurs c t = true →
                 occurs c "+-0123456789" = true) as Hdigits.
  { intros t m Hparse Hin. pose proof (parse_digits_decimal _ _ _ _ Hparse Hin) as Hc.
    simpl in *. by rewrite Hc, !orb_true_r. }
  destruct (Ascii.eqb d "-" || Ascii.eqb d "+") eqn:Hsign.
  - destruct rest as [|e rest]; [done|].
    destruct (parse_digits (String e rest) 0) as [un|] eqn:Hparse; [|done].
    intros _. simpl occurs at 1. intros [Hhead|Htail]%orb_true_iff.
    + apply Ascii.eqb_eq in Hhead as <-. apply orb_true_iff in Hsign as [H|H];
        apply Ascii.eqb_eq in H as ->; reflexivity.
    + by apply (Hdigits _ _ Hparse).
  - destruct (parse_digits (String d rest) 0) as [un|] eqn:Hparse; [|done].
    intros _. by apply (Hdigits _ _ Hparse).
Qed.

(** X17. A path [/todos/<text>] whose text is empty or holds a byte
    that is neither a decimal digit nor a sign (a further slash, a
    letter, a space) is answered 400 [Invalid ID] whatever the method,
    also a method the route does not support, and nothing is changed. *)
Theorem malformed_id_is_rejected method idStr body st w :
  idStr = EmptyString
  ∨ (∃ c, occurs c idStr = true ∧ occurs c "+-0123456789" = false) →
  handleRequest method ("/todos/" +:+ idStr) body st w
  = (ctx_Error "Invalid ID" StatusBadRequest, st, w).
Proof.
  intros Hbad. unfold handleRequest, route.
  rewrite decide_False by apply todos_path_not_collection.
  rewrite strip_prefix_app.
  destruct (strconv_Atoi idStr) as [n|] eqn:Hatoi; [|done].
  destruct Hbad as [->|(c & Hin & Hout)]; [done|].
  by rewrite (strconv_Atoi_bytes _ _ _ Hatoi Hin) in Hout.
Qed.

End Coverage.


(** ** The further properties at work *)

Lemma milk_store_keyed : keyed milk_store.
Proof.
  apply (requestHandler_keyed decode os_steady (POST_todos (inr milk)) initial boot
           _ _ _ (triple_eta _) initial_keyed).
Qed.

Lemma os_steady_advances : clock_advances os_steady.
Proof. intros n m Hne. unfold os_steady. simpl. lia. Qed.

Lemma int_range_42 : minInt ≤ 42 ≤ maxInt.
Proof. unfold minInt, maxInt, intSize. lia. Qed.

(** A run that creates, updates with two files, deletes, creates again
    and lists. *)
Lemma reachable_store_invariants_at_work :
  let rs := [POST_todos (inr milk); PUT_todo 1 (inr describe_with_photos);
             DELETE_todo 1; POST_todos (inr blank); GET_todos] in
  let after := serve decode os_steady rs initial boot in
  keyed after.1.2 ∧ flags_derived after.1.2 ∧ minInt ≤ nextID after.1.2 ≤ maxInt.
Proof.
  intros rs after.
  exact (reachable_store_invariants decode os_steady rs boot _ _ _ (triple_eta _)).
Defined.

Lemma listing_shows_store_at_work :
  keyed milk_store ∧ Body (getTodos milk_store) = JSONTodos [milk_todo]
  ∧ (∀ t, t ∈ [milk_todo] ↔ todos milk_store !! Todo_ID t = Some t)
  ∧ NoDup (Todo_ID <$> [milk_todo])
  ∧ length [milk_todo] = size (todos milk_store).
Proof.
  assert (Body (getTodos milk_store) = JSONTodos [milk_todo]) as Hbody
    by (vm_compute; reflexivity).
  split; [exact milk_store_keyed|]. split; [exact Hbody|].
  exact (listing_shows_store milk_store [milk_todo] milk_store_keyed Hbody).
Defined.

Lemma ids_round_trip_through_paths_at_work :
  minInt ≤ 42 ≤ maxInt
  ∧ route "GET" ("/todos/" +:+ pretty 42) (inr blank) = inr (GET_todo 42)
  ∧ route "DELETE" "/todos/42" (inr blank) = inr (DELETE_todo 42).
Proof.
  split; [exact int_range_42|].
  destruct (ids_round_trip_through_paths 42 (inr blank) int_range_42)
    as (Hget & _ & Hdelete & _).
  split; [exact Hget | exact Hdelete].
Defined.

Lemma created_todo_is_served_at_work :
  StatusCode (createTodo decode os_steady (inr milk) initial boot).1.1 = StatusCreated
  ∧ ∃ t, Body (createTodo decode os_steady (inr milk) initial boot).1.1 = JSONTodo t
      ∧ Todo_ID t = nextID initial
      ∧ ∀ body' w'',
          handleRequest decode os_steady "GET" ("/todos/" +:+ pretty (Todo_ID t))
            body' milk_store w''
          = ({| StatusCode := StatusOK; Body := JSONTodo t |}, milk_store, w'').
Proof.
  assert (StatusCode (createTodo decode os_steady (inr milk) initial boot).1.1
          = StatusCreated) as Hcode by (vm_compute; reflexivity).
  split; [exact Hcode|].
  exact (created_todo_is_served decode os_steady [] boot [] initial boot (inr milk)
           _ _ _ eq_refl (triple_eta _) Hcode).
Defined.

Lemma handleRequest_outcomes_at_work :
  let answer := handleRequest decode os_steady "PATCH" "/todos" (inr milk) initial boot in
  StatusCode answer.1.1 = 405
  ∧ StatusCode answer.1.1 ∈ [200; 201; 204; 400; 404; 405; 500]
  ∧ answer.1.2 = initial ∧ answer.2 = boot.
Proof.
  intros answer.
  destruct (handleRequest_outcomes decode os_steady "PATCH" "/todos" (inr milk)
              initial boot _ _ _ (triple_eta _)) as (Hcode & Hstore & Hworld & _).
  split; [reflexivity|]. split; [exact Hcode|]. split.
  - apply Hstore. intros Hin. apply list_elem_of_In in Hin. simpl in Hin.
    destruct Hin as [Hin|[Hin|[Hin|[]]]]; discriminate Hin.
  - apply Hworld. do 2 apply list_elem_of_further. apply list_elem_of_here.
Defined.

Lemma update_keeps_ids_at_work :
  let answer := updateTodo decode os_steady 1 (inr describe_with_photos)
                  milk_store milk_world in
  keyed milk_store ∧ StatusCode answer.1.1 = StatusOK
  ∧ dom (todos answer.1.2) = dom (todos milk_store)
  ∧ nextID answer.1.2 = nextID milk_store
  ∧ ∃ t, Body answer.1.1 = JSONTodo t ∧ todos answer.1.2 !! 1 = Some t ∧ Todo_ID t = 1.
Proof.
  intros answer.
  assert (StatusCode answer.1.1 = StatusOK) as Hcode by (vm_compute; reflexivity).
  destruct (update_keeps_ids decode os_steady 1 (inr describe_with_photos)
              milk_store milk_world _ _ _ (triple_eta _)) as (Hdom & Hnext & Hreturned).
  split; [exact milk_store_keyed|]. split; [exact Hcode|]. split; [exact Hdom|].
  split; [exact Hnext|]. exact (Hreturned milk_store_keyed Hcode).
Defined.

Lemma update_without_files_idempotent_at_work :
  let first := updateTodo decode os_steady 1 (inr retitle_empty) milk_store milk_world in
  (∀ files, File retitle_empty !! "images" = Some files → files = [])
  ∧ updateTodo decode os_steady 1 (inr retitle_empty) first.1.2 first.2 = first.
Proof.
  intros first.
  assert (∀ files, File retitle_empty !! "images" = Some files → files = [])
    as Hnofile by (intros files Hfiles; vm_compute in Hfiles; discriminate Hfiles).
  split; [exact Hnofile|].
  rewrite (triple_eta first) at 3.
  exact (update_without_files_idempotent decode os_steady 1 retitle_empty
           milk_store milk_world _ _ _ Hnofile (triple_eta _)).
Defined.

Lemma create_stores_request_at_work :
  let answer := createTodo decode os_steady (inr describe_with_photos) milk_store
                  milk_world in
  StatusCode answer.1.1 = StatusCreated
  ∧ ∃ t, Body answer.1.1 = JSONTodo t ∧ todos answer.1.2 !! 2 = Some t
      ∧ Todo_ID t = 2 ∧ Todo_Title t = EmptyString
      ∧ Todo_Description t = "semi-skimmed"
      ∧ Todo_Images t
        = ["uploads/1730600000000000000_a.png"; "uploads/1730600000000001000_b.png"]
      ∧ nextID answer.1.2 = 3.
Proof.
  intros answer.
  assert (StatusCode answer.1.1 = StatusCreated) as Hcode by (vm_compute; reflexivity).
  split; [exact Hcode|].
  destruct (create_stores_request decode os_steady describe_with_photos
              milk_store milk_world _ _ _ (triple_eta _) Hcode)
    as (t & Hbody & Hstored & Hid & Htitle & Hdesc & Himages & _ & Hnext).
  exists t. split; [exact Hbody|]. split; [exact Hstored|]. split; [exact Hid|].
  split; [exact Htitle|]. split; [exact Hdesc|].
  split; [rewrite Himages; vm_compute; reflexivity | exact Hnext].
Defined.

Lemma files_are_never_removed_at_work :
  let rs := [POST_todos (inr describe_with_photos); DELETE_todo 1] in
  let after := serve decode os_steady rs initial boot in
  dom (disk boot) ⊆ dom (disk after.2) ∧ (calls boot ≤ calls after.2)%nat
  ∧ todos after.1.2 = ∅ ∧ size (disk after.2) = 2%nat.
Proof.
  intros rs after.
  destruct (files_are_never_removed decode os_steady rs initial boot _ _ _
              (triple_eta _)) as [Hdisk Hcalls].
  split; [exact Hdisk|]. split; [exact Hcalls|]. split; vm_compute; reflexivity.
Defined.

Lemma stored_images_exist_at_work :
  let rs := [POST_todos (inr describe_with_photos); POST_todos (inr milk)] in
  let after := serve decode os_steady rs initial boot in
  images_on_disk after.1.2 after.2.
Proof.
  intros rs after.
  exact (stored_images_exist decode os_steady rs boot _ _ _ (triple_eta _)).
Defined.

Lemma failed_batch_is_not_rolled_back_at_work :
  let answer := createTodo decode os_disk_full (inr describe_with_photos) initial boot in
  StatusCode answer.1.1 = StatusInternalServerError
  ∧ answer.1.2 = initial
  ∧ is_Some (disk answer.2 !! "uploads/1730600000000000000_a.png").
Proof.
  intros answer.
  assert (StatusCode answer.1.1 = StatusInternalServerError) as Hcode
    by (vm_compute; reflexivity).
  destruct (failed_batch_is_not_rolled_back decode os_disk_full describe_with_photos
              initial boot _ _ _ (triple_eta _) Hcode)
    as (files & n & err & Hfiles & Hn & Herr & _ & Hstore & _ & Hsaved).
  split; [exact Hcode|]. split; [exact Hstore|].
  vm_compute in Hfiles. injection Hfiles as <-.
  assert (n = 1%nat) as ->.
  { destruct n as [|[|n]]; [vm_compute in Herr; discriminate Herr | done
                           | simpl in Hn; lia]. }
  exact (proj2 (Hsaved 0%nat _ ltac:(lia) eq_refl)).
Defined.

Lemma distinct_readings_distinct_references_at_work :
  clock_advances os_steady
  ∧ (∀ files, File describe_with_photos !! "images" = Some files → plain_names files)
  ∧ ∀ t, Body (createTodo decode os_steady (inr describe_with_photos)
                  initial boot).1.1 = JSONTodo t →
         NoDup (Todo_Images t).
Proof.
  assert (∀ files, File describe_with_photos !! "images" = Some files →
                   plain_names files) as Hplain.
  { intros files Hfiles. vm_compute in Hfiles. injection Hfiles as <-.
    repeat constructor. }
  split; [exact os_steady_advances|]. split; [exact Hplain|].
  intros t.
  exact (proj1 (distinct_readings_distinct_references decode os_steady
                  describe_with_photos os_steady_advances Hplain)
           initial boot _ _ _ t (triple_eta _)).
Defined.

Lemma saved_file_shape_at_work :
  let photo := {| Filename := "a.png"; Content := "first" |} in
  let saved := saveUploadedFile os_steady photo boot in
  occurs "/" (Filename photo) = false
  ∧ saved.1 = inr "uploads/1730600000000000000_a.png"
  ∧ originalFilename "uploads/1730600000000000000_a.png" = "a.png"
  ∧ disk saved.2 !! "uploads/1730600000000000000_a.png" = Some "first".
Proof.
  intros photo saved.
  assert (saved = (inr "uploads/1730600000000000000_a.png", saved.2)) as Hsaved
    by (vm_compute; reflexivity).
  destruct (saved_file_shape os_steady photo boot _ _ eq_refl Hsaved)
    as (_ & _ & Hname & Hdisk).
  split; [reflexivity|]. split; [by rewrite Hsaved|]. split; [exact Hname | exact Hdisk].
Defined.

Lemma stored_todos_count_at_work :
  let rs := [POST_todos (inr milk); POST_todos (inr blank); DELETE_todo 1;
             DELETE_todo 1; POST_todos (inr garbled)] in
  let after := serve decode os_steady rs initial boot in
  Z.of_nat (length (issued_ids rs after.1.1)) ≤ maxInt
  ∧ (size (todos after.1.2) + deletions rs after.1.1
     = length (issued_ids rs after.1.1))%nat
  ∧ deletions rs after.1.1 = 1%nat.
Proof.
  intros rs after.
  assert (Z.of_nat (length (issued_ids rs after.1.1)) ≤ maxInt) as Hbound
    by (vm_compute; discriminate).
  split; [exact Hbound|]. split; [|vm_compute; reflexivity].
  exact (stored_todos_count decode os_steady rs boot _ _ _ (triple_eta _) Hbound).
Defined.

Lemma ids_follow_counter_at_work :
  let rs := [POST_todos (inr milk); DELETE_todo 1; POST_todos (inr blank)] in
  let after := serve decode os_steady rs initial boot in
  issued_ids rs after.1.1 = [1; 2] ∧ nextID after.1.2 = 3.
Proof.
  intros rs after.
  destruct (ids_follow_counter decode os_steady rs boot _ _ _ (triple_eta _))
    as [Hids Hnext].
  split; [etrans; [exact Hids|] | etrans; [exact Hnext|]]; vm_compute; reflexivity.
Defined.

Lemma malformed_id_is_rejected_at_work :
  (∃ c, occurs c "1/images" = true ∧ occurs c "+-0123456789" = false)
  ∧ handleRequest decode os_steady "PATCH" "/todos/1/images" (inr milk)
      milk_store milk_world
    = (ctx_Error "Invalid ID" StatusBadRequest, milk_store, milk_world).
Proof.
  assert (∃ c, occurs c "1/images" = true ∧ occurs c "+-0123456789" = false) as Hbad
    by (exists "/"%char; split; reflexivity).
  split; [exact Hbad|].
  exact (malformed_id_is_rejected decode os_steady "PATCH" "1/images" (inr milk)
           milk_store milk_world (or_intror Hbad)).
Defined.

(** * Ids that come round again *)

Section Reuse.

Variable json_Unmarshal : string → option (list Subtask).
Variable os : nat → Syscalls.

Local Abbreviation createTodo := (createTodo json_Unmarshal os).
Local Abbreviation requestHandler := (requestHandler json_Unmarshal os).
Local Abbreviation serve := (serve json_Unmarshal os).

(** Two numbers less than 2^64 apart wrap to different values. *)
Lemma wrap_int_inj_window a b :
  wrap_int a = wrap_int b → - 2 ^ intSize < a - b < 2 ^ intSize → a = b.
Proof.
  unfold wrap_int, intSize. intros Heq Hwindow.
  pose proof (Z.div_mod (a + 2 ^ (64 - 1)) (2 ^ 64) ltac:(lia)) as Ha.
  pose proof (Z.div_mod (b + 2 ^ (64 - 1)) (2 ^ 64) ltac:(lia)) as Hb.
  assert ((a + 2 ^ (64 - 1)) `mod` 2 ^ 64 = (b + 2 ^ (64 - 1)) `mod` 2 ^ 64) as Hmod
    by lia.
  rewrite Hmod in Ha. lia.
Qed.

(** Every id stored at the end of a run was stored at its start or was
    handed out during it. *)
Lemma serve_keys_issued rs st w resps st' w' k :
  serve rs st w = (resps, st', w') →
  is_Some (todos st' !! k) → is_Some (todos st !! k) ∨ k ∈ issued_ids rs resps.
Proof.
  revert st w resps. induction rs as [|r rs IH]; intros st w resps.
  { simpl. intros [= <- <- <-] Hk. by left. }
  simpl serve.
  destruct (requestHandler r st w) as [[resp st1] w1] eqn:Hfirst.
  destruct (serve rs st1 w1) as [[resps1 st2] w2] eqn:Hrest.
  intros [= <- <- <-] Hk. simpl.
  destruct (IH _ _ _ Hrest Hk) as [Hold|Hnew].
  2:{ right. destruct (issued_id r resp); [by apply list_elem_of_further | done]. }
  destruct (requestHandler_step _ _ _ _ _ _ _ _ Hfirst)
    as [(-> & _)|[(b & t & _ & -> & _ & ->)|[(i & b & t & t' & _ & _ & Hi & _ & ->)
       |(i & _ & _ & _ & ->)]]]; simpl in Hold.
  - by left.
  - rewrite lookup_insert in Hold. case_decide; [|by left].
    right. subst k. apply list_elem_of_here.
  - left. rewrite lookup_insert in Hold. case_decide; [subst; by eexists | done].
  - left. rewrite lookup_delete in Hold. case_decide; [by destruct Hold | done].
Qed.

(** The ids a run hands out, by position. *)
Lemma issued_ids_elem rs st w resps st' w' id :
  serve rs st w = (resps, st', w') →
  minInt ≤ nextID st ≤ maxInt →
  id ∈ issued_ids rs resps →
  ∃ i, (i < length (issued_ids rs resps))%nat
       ∧ id = wrap_int (nextID st + Z.of_nat i).
Proof.
  intros Hrun Hrange Hin.
  destruct (serve_ids_wrap _ _ _ _ _ _ _ _ Hrun Hrange) as [Hids _].
  rewrite Hids in Hin. apply list_elem_of_fmap in Hin as (i & -> & Hi).
  apply elem_of_seq in Hi. exists i. split; [lia | done].
Qed.

(** In a run from the initial state that hands out fewer than 2^64
    ids, an id that is stored is not the one the counter holds, and is
    not handed out by a run that follows as long as the two runs
    together hand out fewer than 2^64 ids. *)
Lemma stored_id_not_reissued rs1 w0 resps1 st w id :
  serve rs1 initial w0 = (resps1, st, w) →
  is_Some (todos st !! id) →
  (Z.of_nat (length (issued_ids rs1 resps1)) < 2 ^ intSize → nextID st ≠ id)
  ∧ ∀ rs2 st1 w1 resps2 st2 w2,
      nextID st1 = nextID st →
      serve rs2 st1 w1 = (resps2, st2, w2) →
      Z.of_nat (length (issued_ids rs1 resps1) + length (issued_ids rs2 resps2))
      < 2 ^ intSize →
      id ∉ issued_ids rs2 resps2.
Proof.
  intros Hrun Hstored.
  pose proof (serve_counter_range _ _ _ _ _ _ _ _ Hrun initial_counter_range) as Hrange.
  destruct (serve_ids_wrap _ _ _ _ _ _ _ _ Hrun initial_counter_range) as [_ Hnext].
  change (nextID initial) with 1 in Hnext.
  destruct (serve_keys_issued _ _ _ _ _ _ _ Hrun Hstored) as [[? Hempty]|Hissued].
  { unfold initial in Hempty; simpl in Hempty. by rewrite lookup_empty in Hempty. }
  destruct (issued_ids_elem _ _ _ _ _ _ _ Hrun initial_counter_range Hissued)
    as (i & Hi & ->).
  change (nextID initial) with 1.
  set (n1 := length (issued_ids rs1 resps1)) in *. split.
  - intros Hbound Heq. rewrite Hnext in Heq.
    apply wrap_int_inj_window in Heq; lia.
  - intros rs2 st1 w1 resps2 st2 w2 Hsame Hrun2 Hbound Hin.
    destruct (issued_ids_elem _ _ _ _ _ _ _ Hrun2 ltac:(by rewrite Hsame) Hin)
      as (k & Hk & Heq).
    rewrite Hsame, Hnext, wrap_int_add_l in Heq.
    apply wrap_int_inj_window in Heq; lia.
Qed.

(** C8, as the code has it. In a state reached from the initial one, a
    Delete of a stored id answers 204 and removes the record stored
    under that id and no other: right after it Get of the id answers
    404 and no listing contains a todo with that id, and this stays so
    over any requests that follow, as long as fewer than 2^64 ids are
    handed out in all, before and after the Delete. A Delete of an id
    that is not stored answers 404 and leaves the store as it was. *)
Theorem delete_removes_record rs1 w0 resps1 st w id :
  serve rs1 initial w0 = (resps1, st, w) →
  (∀ todo, todos st !! id = Some todo →
     ∃ st', deleteTodo id st = ({| StatusCode := StatusNoContent; Body := NoBody |}, st')
       ∧ (∀ j, j ≠ id → todos st' !! j = todos st !! j)
       ∧ nextID st' = nextID st
       ∧ gone id st'
       ∧ ∀ rs2 w1 resps2 st'' w'',
           serve rs2 st' w1 = (resps2, st'', w'') →
           Z.of_nat (length (issued_ids rs1 resps1) + length (issued_ids rs2 resps2))
           < 2 ^ intSize →
           gone id st'')
  ∧ (todos st !! id = None →
     deleteTodo id st = (ctx_Error "Todo not found" StatusNotFound, st)).
Proof.
  intros Hrun.
  pose proof (serve_keyed _ _ _ _ _ _ _ _ Hrun initial_keyed) as Hkeyed.
  destruct (deleteTodo_gone json_Unmarshal os id st Hkeyed) as [Hstored Habsent].
  split; [|exact Habsent].
  intros todo Hid.
  destruct (Hstored todo Hid) as (st' & Hdel & Hothers & Hnext & Hnow & Hlater).
  exists st'. split; [exact Hdel|]. split; [exact Hothers|]. split; [exact Hnext|].
  split; [exact Hnow|].
  intros rs2 w1 resps2 st'' w'' Hrun2 Hbound. apply (Hlater _ _ _ _ _ Hrun2).
  destruct (stored_id_not_reissued _ _ _ _ _ id Hrun ltac:(by eexists)) as [_ Hnot].
  by apply (Hnot _ _ _ _ _ _ Hnext Hrun2).
Qed.

(** C10, as the code has it. A Create, Update(i) or Delete(i) leaves
    every record other than the one it is aimed at exactly as it was:
    an Update or Delete is aimed at the id of the path, a Create at
    the id it assigns, the current value of the counter. In every
    state reached from the initial one while fewer than 2^64 ids have
    been handed out, that value is not the id of a stored todo, so
    that there a Create leaves every stored record as it was. *)
Theorem other_records_untouched :
  (∀ r st w resp st' w' j,
      requestHandler r st w = (resp, st', w') →
      target r st ≠ Some j →
      todos st' !! j = todos st !! j)
  ∧ (∀ rs w0 resps st w body resp st' w' j t,
        serve rs initial w0 = (resps, st, w) →
        Z.of_nat (length (issued_ids rs resps)) < 2 ^ intSize →
        todos st !! j = Some t →
        createTodo body st w = (resp, st', w') →
        todos st' !! j = Some t).
Proof.
  split; [apply requestHandler_frame|].
  intros rs w0 resps st w body resp st' w' j t Hrun Hbound Hj Hcreate.
  rewrite <- Hj.
  apply (requestHandler_frame json_Unmarshal os (POST_todos body) st w resp st' w' j
           Hcreate).
  simpl. intros [= Heq].
  destruct (stored_id_not_reissued _ _ _ _ _ j Hrun ltac:(by eexists)) as [Hfresh _].
  by apply Hfresh.
Qed.

(** ** Runs of blank Creates *)

Lemma createTodo_blank_record st w :
  createTodo (inr blank) st w
  = ({| StatusCode := StatusCreated; Body := JSONTodo (blank_todo (nextID st)) |},
     {| todos := <[nextID st := blank_todo (nextID st)]> (todos st);
        nextID := wrap_int (nextID st + 1) |}, w).
Proof. reflexivity. Qed.

(** What a run of [n] blank Creates leaves: the counter moved on by
    [n], every id stored before still stored, the id handed out last
    stored, and no title but the empty one if there was none before. *)
Lemma serve_blank_run n st w :
  minInt ≤ nextID st ≤ maxInt →
  ∃ resps st',
    serve (replicate n (POST_todos (inr blank))) st w = (resps, st', w)
    ∧ length resps = n
    ∧ nextID st' = wrap_int (nextID st + Z.of_nat n)
    ∧ (∀ k, is_Some (todos st !! k) → is_Some (todos st' !! k))
    ∧ (n ≠ 0%nat → is_Some (todos st' !! wrap_int (nextID st + Z.of_nat n - 1)))
    ∧ ((∀ k t, todos st !! k = Some t → Todo_Title t = EmptyString) →
       ∀ k t, todos st' !! k = Some t → Todo_Title t = EmptyString).
Proof.
  revert st. induction n as [|n IH]; intros st Hrange.
  { exists [], st. simpl. rewrite Z.add_0_r, wrap_int_id by done. by repeat split. }
  set (st1 := {| todos := <[nextID st := blank_todo (nextID st)]> (todos st);
                 nextID := wrap_int (nextID st + 1) |}).
  destruct (IH st1 (wrap_int_range _))
    as (resps & st' & Hrest & Hlen & Hnext & Hkept & Hlast & Htitles).
  eexists _, st'. split.
  { rewrite replicate_S.
    exact (serve_cons json_Unmarshal os (POST_todos (inr blank)) _ _ _ _ _ _ _ _ _
             (createTodo_blank_record st w) Hrest). }
  split; [simpl; by rewrite Hlen|]. simpl in Hnext.
  split; [rewrite Hnext, wrap_int_add_l; f_equal; lia|].
  assert (∀ k, is_Some (todos st !! k) → is_Some (todos st1 !! k)) as Hfirst.
  { intros k Hk. simpl. rewrite lookup_insert. case_decide; [by eexists | done]. }
  split; [intros k Hk; by apply Hkept, Hfirst|]. split.
  - intros _. destruct (decide (n = 0%nat)) as [->|Hn].
    + apply Hkept. simpl. replace (nextID st + Z.of_nat 1 - 1) with (nextID st) by lia.
      rewrite wrap_int_id by done. rewrite lookup_insert_eq. by eexists.
    + specialize (Hlast Hn). simpl in Hlast.
      replace (wrap_int (nextID st + 1) + Z.of_nat n - 1)
        with (wrap_int (nextID st + 1) + (Z.of_nat n - 1)) in Hlast by lia.
      rewrite wrap_int_add_l in Hlast.
      by replace (nextID st + Z.of_nat (S n) - 1)
        with (nextID st + 1 + (Z.of_nat n - 1)) by lia.
  - intros Hold. apply Htitles. intros k t. simpl. rewrite lookup_insert.
    case_decide; [by intros [= <-] | apply Hold].
Qed.

End Reuse.

(** ** The corrected claims at work *)

(** Todo 1 is created and deleted; a Create and a listing follow. *)
Lemma delete_removes_record_at_work :
  let rs1 := [POST_todos (inr milk)] in
  let st' := (deleteTodo 1 milk_store).2 in
  let rs2 := [POST_todos (inr blank); GET_todos] in
  let after := serve decode os_steady rs2 st' milk_world in
  todos milk_store !! 1 = Some milk_todo
  ∧ Z.of_nat (length (issued_ids rs1 (serve decode os_steady rs1 initial boot).1.1)
              + length (issued_ids rs2 after.1.1)) < 2 ^ intSize
  ∧ gone 1 st'
  ∧ gone 1 after.1.2.
Proof.
  intros rs1 st' rs2 after.
  assert (Z.of_nat (length (issued_ids rs1 (serve decode os_steady rs1 initial boot).1.1)
                    + length (issued_ids rs2 after.1.1)) < 2 ^ intSize) as Hbound
    by (vm_compute; reflexivity).
  split; [exact milk_stored|]. split; [exact Hbound|].
  destruct (proj1 (delete_removes_record decode os_steady rs1 boot _ milk_store
                     milk_world 1 (triple_eta _))
              milk_todo milk_stored) as (st1 & Hdel & _ & _ & Hnow & Hlater).
  assert (st1 = st') as -> by (unfold st'; by rewrite Hdel).
  split; [exact Hnow|].
  exact (Hlater rs2 milk_world _ _ _ (triple_eta _) Hbound).
Defined.

(** A Create in the store of the example leaves todo 1 alone. *)
Lemma other_records_untouched_at_work :
  let rs := [POST_todos (inr milk)] in
  Z.of_nat (length (issued_ids rs (serve decode os_steady rs initial boot).1.1))
  < 2 ^ intSize
  ∧ todos milk_store !! 1 = Some milk_todo
  ∧ todos (createTodo decode os_steady (inr blank) milk_store milk_world).1.2 !! 1
    = Some milk_todo.
Proof.
  intros rs.
  assert (Z.of_nat (length (issued_ids rs (serve decode os_steady rs initial boot).1.1))
          < 2 ^ intSize) as Hbound by (vm_compute; reflexivity).
  split; [exact Hbound|]. split; [exact milk_stored|].
  exact (proj2 (other_records_untouched decode os_steady)
           rs boot _ milk_store milk_world (inr blank) _ _ _ 1 milk_todo
           (triple_eta _) Hbound milk_stored (triple_eta _)).
Defined.

Lemma wraps_to_one : wrap_int (2 + Z.succ (2 ^ intSize - 1) - 1) = 1.
Proof. reflexivity. Qed.

(** C8, the claim as stated fails: todo 1 is created and deleted, and
    the last of the 2^64 Creates that follow is handed id 1 again, so
    that Get of id 1 answers 200 after its Delete answered 204. *)
Lemma deleted_id_served_again :
  StatusCode <$> (serve decode os_steady reissue_run initial boot).1.1 !! 1%nat
  = Some StatusNoContent
  ∧ StatusCode (getTodo 1 (serve decode os_steady reissue_run initial boot).1.2)
    = StatusOK
  ∧ ¬ gone 1 (serve decode os_steady reissue_run initial boot).1.2.
Proof.
  unfold reissue_run.
  pose proof (Z2Nat.id (2 ^ intSize - 1) ltac:(unfold intSize; lia)) as Hm.
  pose proof wraps_to_one as Hwrap. revert Hm Hwrap.
  generalize (Z.to_nat (2 ^ intSize - 1)) as m. intros m Hm Hwrap.
  set (st2 := {| todos := delete 1 (<[1 := blank_todo 1]> (∅ : gmap Z Todo));
                 nextID := 2 |}).
  destruct (serve_blank_run decode os_steady (S m) st2 boot)
    as (resps & st' & Hrun & _ & _ & _ & Hlast & _).
  { unfold st2, minInt, maxInt, intSize; simpl. lia. }
  specialize (Hlast ltac:(done)).
  change (nextID st2) with 2 in Hlast. rewrite Nat2Z.inj_succ, Hm, Hwrap in Hlast.
  assert (serve decode os_steady
            (POST_todos (inr blank) :: DELETE_todo 1
             :: replicate (S m) (POST_todos (inr blank))) initial boot
          = ({| StatusCode := StatusCreated; Body := JSONTodo (blank_todo 1) |}
             :: {| StatusCode := StatusNoContent; Body := NoBody |} :: resps,
             st', boot)) as ->.
  { apply (serve_cons decode os_steady (POST_todos (inr blank)) _ initial boot
             _ _ _ _ _ _ (createTodo_blank_record decode os_steady initial boot)).
    apply (serve_cons decode os_steady (DELETE_todo 1) _ _ boot
             {| StatusCode := StatusNoContent; Body := NoBody |} st2 boot);
      [reflexivity | exact Hrun]. }
  destruct Hlast as [t Ht].
  assert (StatusCode (getTodo 1 st') = StatusOK) as Hget.
  { unfold getTodo. by rewrite Ht. }
  split; [reflexivity|]. split; [exact Hget|].
  intros [Hgone _]. simpl in Hgone. rewrite Hgone in Hget. discriminate Hget.
Qed.

Lemma wraps_round : wrap_int (2 + (2 ^ intSize - 1)) = 1.
Proof. reflexivity. Qed.

(** C10, the claim as stated fails: after 2^64 Creates none of which
    was deleted, todo 1 is still stored, with the empty title, and the
    counter holds 1 again, so that the next Create answers 201 and
    puts its own record, titled [Buy milk], in the place of todo 1. *)
Lemma create_overwrites_after_full_circle :
  let before := serve decode os_steady full_circle_run initial boot in
  let after := createTodo decode os_steady (inr milk) before.1.2 before.2 in
  (∃ t, todos before.1.2 !! 1 = Some t ∧ Todo_Title t = EmptyString)
  ∧ StatusCode after.1.1 = StatusCreated
  ∧ (∃ t', todos after.1.2 !! 1 = Some t' ∧ Todo_Title t' = "Buy milk")
  ∧ todos after.1.2 !! 1 ≠ todos before.1.2 !! 1.
Proof.
  unfold full_circle_run.
  pose proof (Z2Nat.id (2 ^ intSize - 1) ltac:(unfold intSize; lia)) as Hm.
  pose proof wraps_round as Hwrap. revert Hm Hwrap.
  generalize (Z.to_nat (2 ^ intSize - 1)) as m. intros m Hm Hwrap. cbv zeta.
  set (st1 := {| todos := <[1 := blank_todo 1]> (∅ : gmap Z Todo); nextID := 2 |}).
  destruct (serve_blank_run decode os_steady m st1 boot)
    as (resps & st & Hrun & _ & Hnext & Hkept & _ & Htitles).
  { unfold st1, minInt, maxInt, intSize; simpl. lia. }
  change (nextID st1) with 2 in Hnext. rewrite Hm, Hwrap in Hnext.
  assert (serve decode os_steady (replicate (S m) (POST_todos (inr blank))) initial boot
          = ({| StatusCode := StatusCreated; Body := JSONTodo (blank_todo 1) |} :: resps,
             st, boot)) as ->.
  { rewrite replicate_S.
    exact (serve_cons decode os_steady (POST_todos (inr blank)) _ initial boot
             _ _ _ _ _ _ (createTodo_blank_record decode os_steady initial boot) Hrun). }
  change (?a, ?b, ?c).1.2 with b. change (?a, ?b, ?c).2 with c.
  destruct (Hkept 1) as [t Ht].
  { unfold st1; simpl. rewrite lookup_insert_eq. by eexists. }
  assert (Todo_Title t = EmptyString) as Htitle.
  { apply (Htitles ltac:(intros k x; unfold st1; simpl; rewrite lookup_insert;
                         case_decide; [by intros [= <-] | by rewrite lookup_empty])
             1 t Ht). }
  assert (createTodo decode os_steady (inr milk) st boot
          = ({| StatusCode := StatusCreated;
                Body := JSONTodo {| Todo_ID := nextID st; Todo_Title := "Buy milk";
                                    Todo_Description := EmptyString;
                                    Todo_Completed := true; Todo_Images := [];
                                    Todo_Subtasks := go_done |} |},
             {| todos := <[nextID st :=
                             {| Todo_ID := nextID st; Todo_Title := "Buy milk";
                                Todo_Description := EmptyString;
                                Todo_Completed := true; Todo_Images := [];
                                Todo_Subtasks := go_done |}]> (todos st);
                nextID := wrap_int (nextID st + 1) |}, boot)) as Hcreate
    by reflexivity.
  rewrite Hcreate. simpl. rewrite Hnext, lookup_insert_eq, Ht.
  split; [by exists t|]. split; [done|]. split; [by eexists|].
  intros [= Heq]. rewrite <- Heq in Htitle. discriminate Htitle.
Qed.
